(** * Moving-average costing and stock ledger of oking-inventory

    A shallow embedding of the goods-receipt and shipment handlers of
    [src/scripts/seed.js] ([handleReceiveItems], [handleShipOrder]) together
    with the order-drafting helpers they depend on ([handleItemChange],
    [handleSubmit], [handleAdd]), and the properties of the stock and cost
    ledgers proved about them.

    Numbers.  Quantities and stock levels are integers ([Z]); the form reads
    them with [parseInt].  Money is a JavaScript number; it is modelled by an
    exact rational ([Q]), so the development describes the arithmetic of
    the handlers up to the rounding of binary floating point.  Equality of
    money is [Qeq] ([==]).

    Strings are sequences of UTF-8 bytes.

    Store.  Firestore collections are finite maps from document id to
    document; the two log collections, whose documents get fresh ids and are
    only ever appended, are lists in order of insertion.  Server timestamps
    are not modelled.

    Transactions.  [runTransaction] is an error monad over the staged state
    of the database: a handler that throws leaves the database as it was.
    One client runs at a time.  The handlers read and write in the same
    loop; what a read returns after a write has been staged is a parameter
    of the model ([read_rule]), and the Firestore client the source imports
    rejects such a read ([ReadsBeforeWrites]). *)

From Stdlib Require Import ZArith QArith Qround Qabs Qfield Lia Sorted.
From stdpp Require Import base strings pretty list gmap fin_maps.

Local Open Scope Z_scope.

(** ** Documents *)

Module Product.
(** A document of the [products] collection.  [handleAdd] creates it with
    [averageCost], [cost], [stock] and the four tier prices set to 0. *)
Record t := mk {
  brand : string;
  name : string;
  spec : string;
  stock : Z;
  averageCost : Q;
  cost : Q;
  price_retail : Q;
  price_bronze : Q;
  price_silver : Q;
  price_gold : Q
}.

(** [transaction.update(productRef, { stock, averageCost, cost })] *)
Definition receive (newStock : Z) (newAvgCost itemCost : Q) (p : t) : t :=
  mk (brand p) (name p) (spec p) newStock newAvgCost itemCost
     (price_retail p) (price_bronze p) (price_silver p) (price_gold p).

(** [transaction.update(productRef, { stock })] *)
Definition set_stock (newStock : Z) (p : t) : t :=
  mk (brand p) (name p) (spec p) newStock (averageCost p) (cost p)
     (price_retail p) (price_bronze p) (price_silver p) (price_gold p).
End Product.

Module Item.
(** A line item of an order, as [OrderForm] drafts it:
    [{ productId, quantity, name, price, cost }]; shipping adds
    [costAtSale]. *)
Record t := mk {
  productId : string;
  quantity : Z;
  name : string;
  price : Q;
  cost : Q;
  costAtSale : option Q
}.

(** [{ ...item, costAtSale: c }] *)
Definition stamp (c : Q) (i : t) : t :=
  mk (productId i) (quantity i) (name i) (price i) (cost i) (Some c).

Definition set_productId (v : string) (i : t) : t :=
  mk v (quantity i) (name i) (price i) (cost i) (costAtSale i).
Definition set_quantity (v : Z) (i : t) : t :=
  mk (productId i) v (name i) (price i) (cost i) (costAtSale i).
Definition set_name (v : string) (i : t) : t :=
  mk (productId i) (quantity i) v (price i) (cost i) (costAtSale i).
Definition set_price (v : Q) (i : t) : t :=
  mk (productId i) (quantity i) (name i) v (cost i) (costAtSale i).
Definition set_cost (v : Q) (i : t) : t :=
  mk (productId i) (quantity i) (name i) (price i) v (costAtSale i).
End Item.

Module Order.
(** A purchase or sales order as the handlers see it,
    [{ id: doc.id, ...doc.data() }].  The store keeps it under [id]. *)
Record t := mk {
  id : string;
  orderNumber : string;
  status : string;
  items : list Item.t
}.

Definition set_status (s : string) (o : t) : t :=
  mk (id o) (orderNumber o) s (items o).
Definition complete (updatedItems : list Item.t) (o : t) : t :=
  mk (id o) (orderNumber o) "Completed" updatedItems.
End Order.

Inductive direction := In_ | Out.

Module InvLog.
(** A document of [inventoryLogs]. *)
Record t := mk {
  productId : string;
  productName : string;
  type : direction;
  change : Z;
  newStock : Z;
  relatedDoc : string
}.
End InvLog.

Module CostLog.
(** A document of [costLogs]. *)
Record t := mk {
  productId : string;
  productName : string;
  type : direction;
  relatedDoc : string;
  oldAvgCost : Q;
  newAvgCost : Q
}.
End CostLog.

(** The part of the database the handlers touch. *)
Record db := mkdb {
  products : gmap string Product.t;
  purchaseOrders : gmap string Order.t;
  salesOrders : gmap string Order.t;
  inventoryLogs : list InvLog.t;
  costLogs : list CostLog.t
}.

Definition with_products (f : gmap string Product.t → gmap string Product.t) (d : db) : db :=
  mkdb (f (products d)) (purchaseOrders d) (salesOrders d) (inventoryLogs d) (costLogs d).
Definition with_purchaseOrders (f : gmap string Order.t → gmap string Order.t) (d : db) : db :=
  mkdb (products d) (f (purchaseOrders d)) (salesOrders d) (inventoryLogs d) (costLogs d).
Definition with_salesOrders (f : gmap string Order.t → gmap string Order.t) (d : db) : db :=
  mkdb (products d) (purchaseOrders d) (f (salesOrders d)) (inventoryLogs d) (costLogs d).
Definition add_inventoryLog (e : InvLog.t) (d : db) : db :=
  mkdb (products d) (purchaseOrders d) (salesOrders d) (inventoryLogs d ++ [e]) (costLogs d).
Definition add_costLog (e : CostLog.t) (d : db) : db :=
  mkdb (products d) (purchaseOrders d) (salesOrders d) (inventoryLogs d) (costLogs d ++ [e]).

(** ** JavaScript operators used by the handlers *)

(** [x || 0] on an integer. *)
Definition orZeroZ (x : Z) : Z := if x =? 0 then 0 else x.

(** [x || 0] on a number. *)
Definition orZero (x : Q) : Q := if Qeq_bool x 0 then 0%Q else x.

(** The result of [Number.prototype.toFixed]: below [10^21] the decimal text
    with the requested number of fraction digits; from [10^21] on the method
    returns [Number::toString] of the value, an exponent form that is
    different for different numbers and is kept here as the number. *)
Inductive numeral :=
| Fixed (text : string)
| Exponential (value : Q).

Definition numeral_eqb (a b : numeral) : bool :=
  match a, b with
  | Fixed s, Fixed t => String.eqb s t
  | Exponential x, Exponential y => Qeq_bool x y
  | _, _ => false
  end.

Fixpoint zeros (n : nat) : string :=
  match n with O => EmptyString | S n => "0" +:+ zeros n end.

(** The digits of [n], padded on the left to more than [f] characters, with
    a point before the last [f]. *)
Definition point (f : nat) (n : N) : string :=
  let m := pretty n in
  let m := zeros (S f - String.length m) +:+ m in
  let k := String.length m in
  String.substring 0 (k - f) m +:+ "." +:+ String.substring (k - f) f m.

(** [x.toFixed(5)]: the sign is split off, the magnitude is rounded to the
    nearest multiple of [10^-5] (the larger one on a tie). *)
Definition toFixed5 (x : Q) : numeral :=
  let s := if Qle_bool 0 x then EmptyString else "-" in
  let a := Qabs x in
  if Qle_bool (inject_Z (10 ^ 21)) a then Exponential x
  else
    let n := Qfloor (a * inject_Z 100000 + (1 # 2)) in
    Fixed (s +:+ point 5 (Z.to_N n)).

(** ** Transactions *)

(** What a handler can raise inside [runTransaction].  The first three are
    the [throw new Error(...)] of the handlers, named after the failure they
    report; the last two are raised by the Firestore client. *)
Inductive error :=
| OrderNotReceivable                  (* order missing or already received *)
| ProductNotFound (productId : string) (* product id ... does not exist *)
| InsufficientStock (name : string)    (* product ... is short of stock *)
| ReadAfterWrite                      (* a read follows a staged write *)
| DocumentNotFound.                   (* update of a missing document *)

(** How [transaction.get] behaves once the transaction has staged a write.
    The Firestore client the source imports requires all reads to be executed
    before all writes and raises on a later read ([ReadsBeforeWrites]).  The
    two other rules describe a store that would serve such a read from the
    state at the start of the transaction, or from the staged state; results
    that hold for every rule do not depend on this behaviour. *)
Inductive read_rule := ReadsBeforeWrites | SnapshotReads | ReadYourWrites.

(** The state of a running transaction: the database when it started, the
    database with the staged writes applied, and whether any write has been
    staged. *)
Record txn := mktxn {
  snapshot : db;
  staged : db;
  dirty : bool
}.

Definition tx (A : Type) : Type := txn → error + (A * txn).

Definition ret {A} (a : A) : tx A := λ t, inr (a, t).
Definition throw {A} (e : error) : tx A := λ _, inl e.
Definition bind {A B} (c : tx A) (k : A → tx B) : tx B :=
  λ t, match c t with
       | inl e => inl e
       | inr (a, t') => k a t'
       end.

Notation "'let*' x ':=' c 'in' k" := (bind c (λ x, k))
  (at level 10, x binder, c at level 100, k at level 200).
Notation "c ';;' k" := (bind c (λ _, k))
  (at level 100, k at level 200, right associativity).

Definition write (f : db → db) : tx unit :=
  λ t, inr (tt, mktxn (snapshot t) (f (staged t)) true).

Section Transaction.
Variable rule : read_rule.

(** [await transaction.get(ref)], reading with [sel] the document [ref]
    denotes; [None] when [exists()] is false. *)
Definition tx_get {A} (sel : db → option A) : tx (option A) :=
  λ t, match rule with
       | ReadsBeforeWrites =>
           if dirty t then inl ReadAfterWrite else inr (sel (snapshot t), t)
       | SnapshotReads => inr (sel (snapshot t), t)
       | ReadYourWrites => inr (sel (staged t), t)
       end.

(** [transaction.update(productRef, fields)]; updating a document that
    does not exist fails the transaction. *)
Definition tx_update_product (productId : string) (f : Product.t → Product.t) : tx unit :=
  λ t, match products (staged t) !! productId with
       | None => inl DocumentNotFound
       | Some p => write (with_products <[productId := f p]>) t
       end.

Definition tx_update_purchaseOrder (id : string) (f : Order.t → Order.t) : tx unit :=
  λ t, match purchaseOrders (staged t) !! id with
       | None => inl DocumentNotFound
       | Some o => write (with_purchaseOrders <[id := f o]>) t
       end.

Definition tx_update_salesOrder (id : string) (f : Order.t → Order.t) : tx unit :=
  λ t, match salesOrders (staged t) !! id with
       | None => inl DocumentNotFound
       | Some o => write (with_salesOrders <[id := f o]>) t
       end.

(** [transaction.set(doc(collection(db, ...)), entry)] on a fresh id. *)
Definition tx_set_inventoryLog (e : InvLog.t) : tx unit := write (add_inventoryLog e).
Definition tx_set_costLog (e : CostLog.t) : tx unit := write (add_costLog e).
End Transaction.

(** What the handler reports: [showMessage] of success, or of the error. *)
Inductive outcome := Done | Failed (e : error).

(** [runTransaction(db, body)]: the staged writes are committed together
    when [body] returns and dropped when it throws.  One client at a time:
    no commit is ever retried. *)
Definition runTransaction (body : tx unit) (d : db) : db * outcome :=
  match body (mktxn d d false) with
  | inl e => (d, Failed e)
  | inr (_, t) => (staged t, Done)
  end.

(** ** Goods receipt: [PurchaseManagement.handleReceiveItems] *)

Definition newAvgCost (oldStock : Z) (oldAvgCost : Q) (item : Item.t) : Q :=
  let newStock := oldStock + Item.quantity item in
  if 0 <? newStock
  then ((inject_Z oldStock * oldAvgCost
         + inject_Z (Item.quantity item) * Item.cost item) / inject_Z newStock)%Q
  else Item.cost item.

Section Receive.
Variable rule : read_rule.

(** One turn of [for (const item of order.items)]. *)
Definition receiveItem (order : Order.t) (item : Item.t) : tx unit :=
  let* productDoc := tx_get rule (λ d, products d !! Item.productId item) in
  match productDoc with
  | None => throw (ProductNotFound (Item.productId item))
  | Some productData =>
      let oldStock := orZeroZ (Product.stock productData) in
      let oldAvgCost := orZero (Product.averageCost productData) in
      let newStock := oldStock + Item.quantity item in
      let newAvg := newAvgCost oldStock oldAvgCost item in
      tx_update_product (Item.productId item)
        (Product.receive newStock newAvg (Item.cost item)) ;;
      tx_set_inventoryLog
        (InvLog.mk (Item.productId item) (Item.name item) In_
           (Item.quantity item) newStock (Order.orderNumber order)) ;;
      if negb (numeral_eqb (toFixed5 oldAvgCost) (toFixed5 newAvg))
      then tx_set_costLog
             (CostLog.mk (Item.productId item) (Item.name item) In_
                (Order.orderNumber order) oldAvgCost newAvg)
      else ret tt
  end.

Fixpoint receiveItems (order : Order.t) (items : list Item.t) : tx unit :=
  match items with
  | [] => ret tt
  | item :: rest => receiveItem order item ;; receiveItems order rest
  end.

Definition receiveBody (order : Order.t) : tx unit :=
  let* orderDoc := tx_get rule (λ d, purchaseOrders d !! Order.id order) in
  match orderDoc with
  | None => throw OrderNotReceivable
  | Some data =>
      if String.eqb (Order.status data) "Received" then throw OrderNotReceivable
      else
        receiveItems order (Order.items order) ;;
        tx_update_purchaseOrder (Order.id order) (Order.set_status "Received")
  end.

Definition handleReceiveItems (order : Order.t) (d : db) : db * outcome :=
  runTransaction (receiveBody order) d.
End Receive.

(** ** Shipment: [WarehouseShippingManagement.handleShipOrder] *)

Section Ship.
Variable rule : read_rule.

(** One turn of the loop; returns the element pushed on [updatedItems]. *)
Definition shipItem (order : Order.t) (item : Item.t) : tx Item.t :=
  let* productDoc := tx_get rule (λ d, products d !! Item.productId item) in
  match productDoc with
  | None => throw (InsufficientStock (Item.name item))
  | Some productData =>
      if Product.stock productData <? Item.quantity item
      then throw (InsufficientStock (Item.name item))
      else
        let newStock := Product.stock productData - Item.quantity item in
        tx_update_product (Item.productId item) (Product.set_stock newStock) ;;
        tx_set_inventoryLog
          (InvLog.mk (Item.productId item) (Item.name item) Out
             (- Item.quantity item) newStock (Order.orderNumber order)) ;;
        ret (Item.stamp (orZero (Product.averageCost productData)) item)
  end.

Fixpoint shipItems (order : Order.t) (items : list Item.t) : tx (list Item.t) :=
  match items with
  | [] => ret []
  | item :: rest =>
      let* u := shipItem order item in
      let* us := shipItems order rest in
      ret (u :: us)
  end.

Definition shipBody (order : Order.t) : tx unit :=
  let* updatedItems := shipItems order (Order.items order) in
  tx_update_salesOrder (Order.id order) (Order.complete updatedItems).

(** The handler after the user has confirmed the dialog. *)
Definition handleShipOrder (order : Order.t) (d : db) : db * outcome :=
  runTransaction (shipBody order) d.
End Ship.

(** ** Drafting: [ProductManagement.handleAdd] and [OrderForm] *)

(** [addDoc(collection(db, 'products'), { ...productData, averageCost: 0,
    cost: 0, stock: 0, price_retail: 0, ... })]; [id] is the id the store
    gives the new document. *)
Definition handleAdd (id : string) (productData : Product.t) (d : db) : db :=
  with_products
    <[id := Product.mk (Product.brand productData) (Product.name productData)
              (Product.spec productData) 0 0 0 0 0 0 0]> d.

(** [product[`price_${tier}`]] *)
Definition tierPrice (tier : string) (p : Product.t) : option Q :=
  if String.eqb tier "retail" then Some (Product.price_retail p)
  else if String.eqb tier "bronze" then Some (Product.price_bronze p)
  else if String.eqb tier "silver" then Some (Product.price_silver p)
  else if String.eqb tier "gold" then Some (Product.price_gold p)
  else None.

(** [a || b || 0] where [a] may be undefined. *)
Definition firstTruthy (a : option Q) (b : Q) : Q :=
  match a with
  | Some x => if Qeq_bool x 0 then orZero b else x
  | None => orZero b
  end.

(** The white space and the line terminators of ECMAScript, which
    [String.prototype.trim] removes, in UTF-8: U+0009 to U+000D and U+0020
    are one byte; U+00A0 is two; U+1680, U+2000 to U+200A, U+2028, U+2029,
    U+202F, U+205F, U+3000 and U+FEFF are three. *)
Definition isSpace1 (a : N) : bool :=
  match a with
  | 9%N | 10%N | 11%N | 12%N | 13%N | 32%N => true
  | _ => false
  end.

Definition isSpace2 (a b : N) : bool := ((a =? 194) && (b =? 160))%N.

Definition isSpace3 (a b c : N) : bool :=
  match a, b with
  | 225%N, 154%N => (c =? 128)%N
  | 226%N, 128%N =>
      ((128 <=? c) && (c <=? 138) || (c =? 168) || (c =? 169) || (c =? 175))%N
  | 226%N, 129%N => (c =? 159)%N
  | 227%N, 128%N => (c =? 128)%N
  | 239%N, 187%N => (c =? 191)%N
  | _, _ => false
  end.

(** The string without the white space it starts with.  With [backwards]
    the bytes of the string are read as those of a reversed string. *)
Fixpoint strip (backwards : bool) (s : string) : string :=
  match s with
  | EmptyString => EmptyString
  | String a s1 =>
      let x := Ascii.N_of_ascii a in
      if isSpace1 x then strip backwards s1
      else
        match s1 with
        | EmptyString => s
        | String b s2 =>
            let y := Ascii.N_of_ascii b in
            if (if backwards then isSpace2 y x else isSpace2 x y)
            then strip backwards s2
            else
              match s2 with
              | EmptyString => s
              | String c s3 =>
                  let z := Ascii.N_of_ascii c in
                  if (if backwards then isSpace3 z y x else isSpace3 x y z)
                  then strip backwards s3
                  else s
              end
        end
  end.

Definition trimStart (s : string) : string := strip false s.

Definition trimEnd (s : string) : string := String.rev (strip true (String.rev s)).

(** [s.trim()] *)
Definition trim (s : string) : string := trimEnd (trimStart s).

(** The two uses of [handleItemChange(index, field, value)] in the form. *)
Inductive change :=
| ProductIdField (value : string)
| QuantityField (value : Z).

Section OrderForm.
Variable isSales : bool.
(** [selectedCustomer?.tier] *)
Variable selectedTier : option string.
(** The form's live copy of the [products] collection. *)
Variable productList : gmap string Product.t.

Definition pickProduct (value : string) (item : Item.t) : Item.t :=
  let item := Item.set_productId value item in
  match productList !! value with
  | None => item
  | Some product =>
      let item :=
        Item.set_name
          (trim (Product.brand product +:+ " " +:+ Product.name product
                 +:+ " " +:+ Product.spec product)) item in
      let item := Item.set_cost (orZero (Product.cost product)) item in
      if isSales then
        let tier := match selectedTier with
                    | Some s => if String.eqb s EmptyString then "retail" else s
                    | None => "retail"
                    end in
        Item.set_price
          (firstTruthy (tierPrice tier product) (Product.price_retail product)) item
      else item
  end.

(** [None] when [items[index]] is undefined (the assignment throws). *)
Definition handleItemChange (items : list Item.t) (index : nat) (c : change)
  : option (list Item.t) :=
  match items !! index with
  | None => None
  | Some item =>
      Some (<[index := match c with
                       | ProductIdField value => pickProduct value item
                       | QuantityField value => Item.set_quantity value item
                       end]> items)
  end.
End OrderForm.

(** [handleSubmit]: the order handed to [onSave], or [None] when the form
    shows a message instead. *)
Definition handleSubmit (partyName : string) (items : list Item.t)
  : option (string * list Item.t) :=
  if String.eqb partyName EmptyString then None
  else
    let finalItems :=
      filter (λ item, Item.productId item ≠ EmptyString ∧ 0 < Item.quantity item) items in
    match finalItems with
    | [] => None
    | _ => Some (partyName, finalItems)
    end.

(** [PurchaseManagement.handleAddOrder]; [id] and [orderNumber] are the
    document id and the [PO-...] number the new order gets. *)
Definition handleAddOrder (id orderNumber : string) (order : string * list Item.t) (d : db) : db :=
  with_purchaseOrders <[id := Order.mk id orderNumber "Pending" order.2]> d.

(** ** The ledger *)

(** Sum of [change] over the inventory log entries of one product. *)
Definition ledger (productId : string) (logs : list InvLog.t) : Z :=
  foldr (λ e acc, if String.eqb (InvLog.productId e) productId
                  then InvLog.change e + acc else acc) 0 logs.

(** A committed movement: a receipt or a shipment that succeeded. *)
Inductive movement (rule : read_rule) : db → db → Prop :=
| receipt order d d' :
    handleReceiveItems rule order d = (d', Done) → movement rule d d'
| shipment order d d' :
    handleShipOrder rule order d = (d', Done) → movement rule d d'.

(** Any number of committed movements, one after the other. *)
Inductive movements (rule : read_rule) : db → db → Prop :=
| movements_nil d : movements rule d d
| movements_step d d' d'' :
    movements rule d d' → movement rule d' d'' → movements rule d d''.

(** ** Notions used in the statements *)

(** The database a read is served from. *)
Definition view (rule : read_rule) (t : txn) : db :=
  match rule with
  | ReadYourWrites => staged t
  | _ => snapshot t
  end.

(** The effect of receiving [item] on the staged database, when the product
    was read as [p] and is staged as [q]. *)
Definition received (order : Order.t) (item : Item.t) (p q : Product.t) (s : db) : db :=
  let oldStock := orZeroZ (Product.stock p) in
  let oldAvgCost := orZero (Product.averageCost p) in
  let newStock := oldStock + Item.quantity item in
  let newAvg := newAvgCost oldStock oldAvgCost item in
  let s := with_products
             <[Item.productId item := Product.receive newStock newAvg (Item.cost item) q]> s in
  let s := add_inventoryLog
             (InvLog.mk (Item.productId item) (Item.name item) In_
                (Item.quantity item) newStock (Order.orderNumber order)) s in
  if negb (numeral_eqb (toFixed5 oldAvgCost) (toFixed5 newAvg))
  then add_costLog
         (CostLog.mk (Item.productId item) (Item.name item) In_
            (Order.orderNumber order) oldAvgCost newAvg) s
  else s.

(** The effect of shipping [item] on the staged database. *)
Definition shipped (order : Order.t) (item : Item.t) (p q : Product.t) (s : db) : db :=
  let newStock := Product.stock p - Item.quantity item in
  add_inventoryLog
    (InvLog.mk (Item.productId item) (Item.name item) Out
       (- Item.quantity item) newStock (Order.orderNumber order))
    (with_products <[Item.productId item := Product.set_stock newStock q]> s).

(** The scenario of the specification, on any database that holds the
    product and the three orders. *)
Definition scenario (rule : read_rule) : Prop :=
  ∀ d pid p po1 po2 so data1 data2 data3 n1 n2 n3 pr1 pr2 pr3 c3,
    products d !! pid = Some p →
    Product.stock p = 0 → (Product.averageCost p == 0)%Q →
    Order.items po1 = [Item.mk pid 10 n1 pr1 100 None] →
    Order.items po2 = [Item.mk pid 5 n2 pr2 130 None] →
    Order.items so = [Item.mk pid 12 n3 pr3 c3 None] →
    Order.id po1 ≠ Order.id po2 →
    purchaseOrders d !! Order.id po1 = Some data1 → Order.status data1 = "Pending" →
    purchaseOrders d !! Order.id po2 = Some data2 → Order.status data2 = "Pending" →
    salesOrders d !! Order.id so = Some data3 →
    ∃ d1 d2 d3 p1 p2 p3 o c,
      handleReceiveItems rule po1 d = (d1, Done)
      ∧ products d1 !! pid = Some p1
      ∧ Product.stock p1 = 10 ∧ (Product.averageCost p1 == 100)%Q
      ∧ handleReceiveItems rule po2 d1 = (d2, Done)
      ∧ products d2 !! pid = Some p2
      ∧ Product.stock p2 = 15 ∧ (Product.averageCost p2 == 110)%Q
      ∧ handleShipOrder rule so d2 = (d3, Done)
      ∧ products d3 !! pid = Some p3
      ∧ Product.stock p3 = 3 ∧ (Product.averageCost p3 == 110)%Q
      ∧ salesOrders d3 !! Order.id so = Some o
      ∧ Order.status o = "Completed"
      ∧ Order.items o = [Item.mk pid 12 n3 pr3 c3 (Some c)] ∧ (c == 110)%Q.

(** The ids of the products are the same in the staged database and in the
    snapshot. *)
Definition same_ids (t : txn) : Prop :=
  ∀ pid, products (staged t) !! pid = None ↔ products (snapshot t) !! pid = None.

(** [p'] is [p] but for its stock. *)
Definition stock_of (p' p : Product.t) : Prop :=
  p' = Product.set_stock (Product.stock p') p.

(** The staged products are those of the snapshot but for their stock. *)
Definition stock_only (s s0 : db) : Prop :=
  ∀ pid,
    match products s !! pid, products s0 !! pid with
    | Some p', Some p => stock_of p' p
    | None, None => True
    | _, _ => False
    end.

(** The last line item of [items] for the product [pid]. *)
Definition lastFor (pid : string) (items : list Item.t) : option Item.t :=
  last (filter (λ i, Item.productId i = pid) items).

(** Before its first write a transaction has staged nothing. *)
Definition coherent (t : txn) : Prop := dirty t = false → staged t = snapshot t.

(** Every entry of the product holds in [newStock] the balance after it. *)
Definition running (pid : string) (logs : list InvLog.t) : Prop :=
  ∀ k e, logs !! k = Some e → InvLog.productId e = pid →
         InvLog.newStock e = ledger pid (take (S k) logs).

(** The log of the product adds up to its stock. *)
Definition balanced (pid : string) (d : db) : Prop :=
  ∃ p, products d !! pid = Some p
       ∧ ledger pid (inventoryLogs d) = Product.stock p
       ∧ running pid (inventoryLogs d).

(** The units and the money of a list of received line items. *)
Definition totalQuantity (lines : list Item.t) : Z :=
  foldr (λ i acc, Item.quantity i + acc) 0 lines.

Definition totalCost (lines : list Item.t) : Q :=
  foldr (λ i acc, (inject_Z (Item.quantity i) * Item.cost i + acc)%Q) 0%Q lines.

(** The line items for one product. *)
Definition linesFor (pid : string) (items : list Item.t) : list Item.t :=
  filter (λ i, Item.productId i = pid) items.

(** Committed receipts, one after the other, and the line items they have
    received for the product [pid], in the order in which they were
    applied. *)
Inductive receiving (rule : read_rule) (pid : string) : list Item.t → db → db → Prop :=
| receiving_nil d : receiving rule pid [] d d
| receiving_step lines order d d' d'' :
    receiving rule pid lines d d' →
    handleReceiveItems rule order d' = (d'', Done) →
    receiving rule pid (lines ++ linesFor pid (Order.items order)) d d''.

(** The stock is the number of units received, and the stock at the average
    cost is worth what was paid for them. *)
Definition weighted (pid : string) (lines : list Item.t) (d : db) : Prop :=
  ∃ p, products d !! pid = Some p
       ∧ Product.stock p = totalQuantity lines
       ∧ (inject_Z (Product.stock p) * Product.averageCost p == totalCost lines)%Q.

(** No staged stock exceeds the stock the transaction started from. *)
Definition no_more (s s0 : db) : Prop :=
  ∀ pid p' p0, products s !! pid = Some p' → products s0 !! pid = Some p0 →
               Product.stock p' ≤ Product.stock p0.

(** ** Sample data *)

(** A product that has just been created, two purchase orders for it and
    a sales order. *)
Module Shop.
Definition widget : Product.t := Product.mk "Acme" "Widget" "M" 0 0 0 0 0 0 0.
Definition line (q : Z) (c : Q) : Item.t := Item.mk "w" q "Acme Widget M" 0 c None.
Definition po1 := Order.mk "po1" "PO-1" "Pending" [line 10 100].
Definition po2 := Order.mk "po2" "PO-2" "Pending" [line 5 130].
Definition so1 := Order.mk "so1" "SO-1" "Pending Shipment" [line 12 0].
Definition start : db :=
  mkdb {["w" := widget]} {["po1" := po1; "po2" := po2]} {["so1" := so1]} [] [].
End Shop.

Module Stray.
(** A purchase order whose status is neither Pending nor Received, and one
    that is Received. *)
Definition po := Order.mk "po3" "PO-3" "completed" [Shop.line 1 50].
Definition received := Order.mk "po4" "PO-4" "Received" [Shop.line 1 50].
Definition start : db :=
  mkdb {["w" := Shop.widget]} {["po3" := po; "po4" := received]} ∅ [] [].
End Stray.

Module Returned.
(** A purchase order with a line of quantity 0 and one of quantity -2. *)
Definition zero := Order.mk "po5" "PO-5" "Pending" [Shop.line 0 50].
Definition negative := Order.mk "po6" "PO-6" "Pending" [Shop.line (-2) 50].
Definition start : db :=
  mkdb {["w" := Shop.widget]} {["po5" := zero; "po6" := negative]} ∅ [] [].
End Returned.

(** Five units in stock at average cost 110, and a sales order of two. *)
Module Stocked.
Definition widget : Product.t := Product.mk "Acme" "Widget" "M" 5 110 130 0 0 0 0.
Definition so := Order.mk "so2" "SO-2" "Pending Shipment" [Shop.line 2 0].
Definition start : db := mkdb {["w" := widget]} ∅ {["so2" := so]} [] [].
End Stocked.

Module Bulk.
(** A large stock at average cost 1, and one more unit bought at 2. *)
Definition widget : Product.t := Product.mk "Acme" "Widget" "M" 1000000 1 1 0 0 0 0.
Definition po := Order.mk "po7" "PO-7" "Pending" [Shop.line 1 2].
Definition start : db := mkdb {["w" := widget]} {["po7" := po]} ∅ [] [].
End Bulk.

(** Orders of two lines. *)
Module TwoLines.
Definition gadget : Product.t := Product.mk "Acme" "Gadget" "L" 5 80 80 0 0 0 0.
Definition short : Item.t := Item.mk "g" 100 "Acme Gadget L" 0 0 None.
(** One unit of a product in stock, then 100 units of a product of which
    5 are in stock. *)
Definition so := Order.mk "so3" "SO-3" "Pending Shipment" [Shop.line 1 0; short].
Definition start : db :=
  mkdb {["w" := Stocked.widget; "g" := gadget]} ∅ {["so3" := so]} [] [].
(** Ten units at 100, then five units at 130, of the same product. *)
Definition po := Order.mk "po8" "PO-8" "Pending" [Shop.line 10 100; Shop.line 5 130].
Definition empty : db := mkdb {["w" := Shop.widget]} {["po8" := po]} ∅ [] [].
End TwoLines.

(** ** Views: [getAvailableViews] and [InventorySystem] *)

(** An entry of the side bar without children, [{ id, label, icon }]; the
    icon is a component and is left out. *)
Record navItem := NavItem {
  itemId : string;
  itemLabel : string
}.

(** An entry of the side bar, [{ id, label, icon, children }]. *)
Record navView := View {
  viewId : string;
  viewLabel : string;
  viewChildren : option (list navItem)
}.

Definition allViews : list navView :=
  [ View "dashboard" "儀表板" None;
    View "basicData" "基礎資料"
      (Some [ NavItem "products" "商品管理";
              NavItem "customers" "客戶管理";
              NavItem "suppliers" "供應商管理" ]);
    View "inventory" "庫存管理" None;
    View "sales" "銷貨管理" None;
    View "shipping" "倉庫出貨管理" None;
    View "purchases" "進貨管理" None;
    View "reports" "報表與結算" None ].

Definition getAvailableViews (role : string) : list navView :=
  if String.eqb role "admin" then allViews
  else if String.eqb role "warehouse" then
    let allowedIds := ["dashboard"; "shipping"] in
    filter (λ v, viewId v ∈ allowedIds ∧ viewChildren v = None) allViews
  else [].

(** [availableViews.flatMap(v => v.children ? v.children : v)] *)
Definition flatViews (views : list navView) : list navItem :=
  flat_map (λ v, match viewChildren v with
                 | Some c => c
                 | None => [NavItem (viewId v) (viewLabel v)]
                 end) views.

(** The effect of [InventorySystem]: a view the role is not offered is
    replaced by the dashboard. *)
Definition settleView (role currentView : string) : string :=
  if existsb (λ v, String.eqb (itemId v) currentView) (flatViews (getAvailableViews role))
  then currentView else "dashboard".

(** What [renderView] returns. *)
Inductive page :=
| Verifying
| Dashboard
| ProductManagement
| CustomerManagement
| SupplierManagement
| InventoryManagement
| SalesManagement
| WarehouseShippingManagement
| PurchaseManagement
| Reports
| AccessDenied.

Definition adminOnly (role : string) (p : page) : page :=
  if String.eqb role "admin" then p else AccessDenied.

(** [renderView]; [user] tells whether a user is signed in. *)
Definition renderView (loading user : bool) (role currentView : string) : page :=
  if loading || negb user then Verifying
  else if String.eqb currentView "dashboard" then Dashboard
  else if String.eqb currentView "products" then adminOnly role ProductManagement
  else if String.eqb currentView "customers" then adminOnly role CustomerManagement
  else if String.eqb currentView "suppliers" then adminOnly role SupplierManagement
  else if String.eqb currentView "inventory" then adminOnly role InventoryManagement
  else if String.eqb currentView "sales" then adminOnly role SalesManagement
  else if String.eqb currentView "shipping" then WarehouseShippingManagement
  else if String.eqb currentView "purchases" then adminOnly role PurchaseManagement
  else if String.eqb currentView "reports" then adminOnly role Reports
  else Dashboard.

(** ** The lines of the order form: [addItem], [removeItem] *)

(** [[...items, { productId: '', quantity: 1, name: '', price: 0, cost: 0 }]] *)
Definition addItem (items : list Item.t) : list Item.t :=
  items ++ [Item.mk EmptyString 1 EmptyString 0 0 None].

(** [l.filter((_, i) => keep(i))], counting from [i]. *)
Fixpoint filterIndex {A} (keep : nat → bool) (i : nat) (l : list A) : list A :=
  match l with
  | [] => []
  | x :: rest =>
      if keep i then x :: filterIndex keep (S i) rest
      else filterIndex keep (S i) rest
  end.

(** [items.filter((_, i) => i !== index)] *)
Definition removeItem (index : nat) (items : list Item.t) : list Item.t :=
  filterIndex (λ i, negb (Nat.eqb i index)) 0 items.

(** ** Buttons *)

(** The buttons of [OrderList] and of [ShippingDetailModal] are rendered on
    these conditions. *)
Definition approveButton (type : string) (order : Order.t) : bool :=
  String.eqb type "sales" && String.eqb (Order.status order) "Pending Approval".


Definition shipButton (order : Order.t) : bool :=
  String.eqb (Order.status order) "Pending Shipment".

(** [{ id: doc.id, ...doc.data() }]: the order a list shows for the document
    stored under [key]. *)
Definition shown (key : string) (o : Order.t) : Order.t :=
  Order.mk key (Order.orderNumber o) (Order.status o) (Order.items o).

(** ** Sales orders: [SalesManagement] *)

Module Sales.
(** [order.items.reduce((sum, item) => sum + item.price * item.quantity, 0)] *)
Definition totalAmount (items : list Item.t) : Q :=
  fold_left (λ sum item, (sum + Item.price item * inject_Z (Item.quantity item))%Q)
    items 0%Q.

(** [handleAddOrder]; [id] and [orderNumber] are the document id and the
    [SO-...] number the new order gets. *)
Definition handleAddOrder (id orderNumber : string) (order : string * list Item.t) (d : db) : db :=
  with_salesOrders <[id := Order.mk id orderNumber "Pending Approval" order.2]> d.

(** [handleApproveOrder]; [confirmed] is the answer to the dialog.  An
    [updateDoc] of a document that does not exist fails. *)
Definition handleApproveOrder (confirmed : bool) (orderId : string) (d : db) : db * outcome :=
  if confirmed then
    match salesOrders d !! orderId with
    | None => (d, Failed DocumentNotFound)
    | Some o =>
        (with_salesOrders <[orderId := Order.set_status "Pending Shipment" o]> d, Done)
    end
  else (d, Done).
End Sales.

Module Purchases.
(** [order.items.reduce((sum, item) => sum + item.cost * item.quantity, 0)] *)
Definition totalAmount (items : list Item.t) : Q :=
  fold_left (λ sum item, (sum + Item.cost item * inject_Z (Item.quantity item))%Q)
    items 0%Q.
End Purchases.

(** ** Products: [ProductForm] and [ProductManagement] *)

Module ProductForm.
(** What [handleSubmit] hands to [onSave], the prices and the threshold
    already parsed. *)
Record t := mk {
  sku : string;
  brand : string;
  name : string;
  spec : string;
  description : string;
  price_retail : Q;
  price_bronze : Q;
  price_silver : Q;
  price_gold : Q;
  lowStockThreshold : Z
}.
End ProductForm.

(** [ProductManagement.handleUpdate]: [updateDoc] with the fields of the
    form; those a [Product.t] keeps are written. *)
Definition handleUpdate (id : string) (data : ProductForm.t) (d : db) : db * outcome :=
  match products d !! id with
  | None => (d, Failed DocumentNotFound)
  | Some p =>
      (with_products
         <[id := Product.mk (ProductForm.brand data) (ProductForm.name data)
                   (ProductForm.spec data) (Product.stock p) (Product.averageCost p)
                   (Product.cost p) (ProductForm.price_retail data)
                   (ProductForm.price_bronze data) (ProductForm.price_silver data)
                   (ProductForm.price_gold data)]> d, Done)
  end.

(** [ProductManagement.handleDelete]; [confirmed] is the answer to the
    dialog. *)
Definition handleDelete (confirmed : bool) (id : string) (d : db) : db :=
  if confirmed then with_products (delete id) d else d.

(** ** The dashboard and the ledgers *)

(** [products.reduce((sum, p) => sum + ((p.stock || 0) * (p.averageCost || 0)), 0)] *)
Definition totalInventoryCost (products : list Product.t) : Q :=
  fold_left
    (λ sum p, (sum + inject_Z (orZeroZ (Product.stock p)) * orZero (Product.averageCost p))%Q)
    products 0%Q.

(** The documents of the [products] collection, as a subscription lists
    them. *)
Definition productDocs (d : db) : list Product.t := (map_to_list (products d)).*2.

(** The query of [InventoryLedgerModal]: the entries of the product, the
    latest first. *)
Definition inventoryLedger (productId : string) (d : db) : list InvLog.t :=
  reverse (filter (λ e, InvLog.productId e = productId) (inventoryLogs d)).

(** The query of [CostLedgerModal]. *)
Definition costLedger (productId : string) (d : db) : list CostLog.t :=
  reverse (filter (λ e, CostLog.productId e = productId) (costLogs d)).

(** ** Reports *)

Module Sale.
(** A completed sales order as [Reports] reads it; [createdAt] in
    milliseconds. *)
Record t := mk {
  order : Order.t;
  partyName : string;
  totalAmount : Q;
  createdAt : Z
}.
End Sale.

(** [filterOrdersByDate]: [start] is the first date of the form and [end_]
    the second one moved to 23:59:59.999, both in milliseconds. *)
Definition filterOrdersByDate (start end_ : Z) (orders : list Sale.t) : list Sale.t :=
  filter (λ o, start ≤ Sale.createdAt o ∧ Sale.createdAt o ≤ end_) orders.

(** [item.costAtSale || 0] *)
Definition costAtSaleOrZero (item : Item.t) : Q :=
  match Item.costAtSale item with
  | Some c => orZero c
  | None => 0%Q
  end.

(** [order.items.reduce((itemSum, item) => itemSum + (item.costAtSale || 0) * item.quantity, 0)] *)
Definition orderCogs (items : list Item.t) : Q :=
  fold_left (λ itemSum item,
               (itemSum + costAtSaleOrZero item * inject_Z (Item.quantity item))%Q)
    items 0%Q.

Record performance := mkPerformance {
  totalRevenue : Q;
  totalCogs : Q;
  grossProfit : Q;
  profitMargin : Q
}.

(** The effect of [Reports] that fills [performanceData]. *)
Definition performanceData (start end_ : Z) (sales : list Sale.t) : performance :=
  let filteredSales := filterOrdersByDate start end_ sales in
  let totalRevenue := fold_left (λ sum o, (sum + Sale.totalAmount o)%Q) filteredSales 0%Q in
  let totalCogs :=
    fold_left (λ sum o, (sum + orderCogs (Order.items (Sale.order o)))%Q)
      filteredSales 0%Q in
  let grossProfit := (totalRevenue - totalCogs)%Q in
  let profitMargin :=
    if Qlt_le_dec 0 totalRevenue then (grossProfit / totalRevenue * 100)%Q else 0%Q in
  mkPerformance totalRevenue totalCogs grossProfit profitMargin.

(** [Array.prototype.sort] with [(a, b) => a.createdAt - b.createdAt]: the
    sort is stable, an order is put after those that are not later. *)
Fixpoint insertByDate (o : Sale.t) (sorted : list Sale.t) : list Sale.t :=
  match sorted with
  | [] => [o]
  | x :: rest =>
      if Sale.createdAt o <? Sale.createdAt x then o :: sorted
      else x :: insertByDate o rest
  end.

Definition sortByDate (orders : list Sale.t) : list Sale.t :=
  fold_left (λ sorted o, insertByDate o sorted) orders [].

Record statement := mkStatement {
  customer : string;
  orders : list Sale.t;
  statementTotal : Q
}.

(** The order of the statement: not later than. *)
Definition byDate (a b : Sale.t) : Prop := Sale.createdAt a ≤ Sale.createdAt b.

(** [handleGenerateStatement]: [None] when no customer is selected. *)
Definition handleGenerateStatement (selectedCustomer : string) (start end_ : Z)
    (sales : list Sale.t) : option statement :=
  if String.eqb selectedCustomer EmptyString then None
  else
    let customerOrders := filter (λ o, Sale.partyName o = selectedCustomer) sales in
    let filteredOrders := sortByDate (filterOrdersByDate start end_ customerOrders) in
    let total := fold_left (λ sum o, (sum + Sale.totalAmount o)%Q) filteredOrders 0%Q in
    Some (mkStatement selectedCustomer filteredOrders total).

(** ** Buttons pressed *)





(** ** Everything the application does to a product *)

(** Two states of a product document with the same stock, average cost and
    cost. *)
Definition same_figures (a b : option Product.t) : Prop :=
  match a, b with
  | Some p, Some q =>
      Product.stock p = Product.stock q
      ∧ Product.averageCost p = Product.averageCost q
      ∧ Product.cost p = Product.cost q
  | None, None => True
  | _, _ => False
  end.

(** One call of a handler, whatever its outcome.  The product [pid] is not
    deleted, and new documents get ids that are not in use. *)
Inductive activity (rule : read_rule) (pid : string) : db → db → Prop :=
| act_receive order d d' r :
    handleReceiveItems rule order d = (d', r) → activity rule pid d d'
| act_ship order d d' r :
    handleShipOrder rule order d = (d', r) → activity rule pid d d'
| act_approve confirmed orderId d d' r :
    Sales.handleApproveOrder confirmed orderId d = (d', r) → activity rule pid d d'
| act_add_sales id orderNumber order d :
    salesOrders d !! id = None →
    activity rule pid d (Sales.handleAddOrder id orderNumber order d)
| act_add_purchase id orderNumber order d :
    purchaseOrders d !! id = None →
    activity rule pid d (handleAddOrder id orderNumber order d)
| act_add_product id productData d :
    products d !! id = None →
    activity rule pid d (handleAdd id productData d)
| act_update id data d d' r :
    handleUpdate id data d = (d', r) → activity rule pid d d'
| act_delete confirmed id d :
    id ≠ pid → activity rule pid d (handleDelete confirmed id d).

Inductive activities (rule : read_rule) (pid : string) : db → db → Prop :=
| activities_nil d : activities rule pid d d
| activities_step d d' d'' :
    activities rule pid d d' → activity rule pid d' d'' → activities rule pid d d''.

(** The rows of an inventory ledger, the latest first: each row holds the
    balance of the row below it plus its own change, and the oldest row
    starts from [floor]. *)
Fixpoint chained (floor : Z) (rows : list InvLog.t) : Prop :=
  match rows with
  | [] => True
  | e :: older =>
      InvLog.newStock e =
        match older with [] => floor | e' :: _ => InvLog.newStock e' end + InvLog.change e
      ∧ chained floor older
  end.

(** The inventory ledger of the product shows its stock in the first row. *)
Definition ledgerShows (pid : string) (d : db) : Prop :=
  ∃ p, products d !! pid = Some p
       ∧ Product.stock p =
           match inventoryLedger pid d with [] => 0 | e :: _ => InvLog.newStock e end
       ∧ chained 0 (inventoryLedger pid d).

(** The cost ledger of the product shows, in the text of five decimals, its
    average cost in the first row, or [initial] when it has no row. *)
Definition costShown (pid : string) (initial : Q) (d : db) : Prop :=
  ∃ p, products d !! pid = Some p
       ∧ numeral_eqb
           (toFixed5 (Product.averageCost p))
           (toFixed5 match costLedger pid d with
                     | [] => initial
                     | e :: _ => CostLog.newAvgCost e
                     end) = true.

(** A shop that opens with a purchase order and a sales order for a product
    that is still to be created. *)
Module Opening.
Definition so := Order.mk "so3" "SO-3" "Pending Shipment" [Shop.line 4 0].
Definition start : db := mkdb ∅ {["po1" := Shop.po1]} {["so3" := so]} [] [].
End Opening.

(** * Properties *)

(** ** The operators *)

Lemma orZeroZ_id x : orZeroZ x = x.
Proof. unfold orZeroZ. destruct (Z.eqb_spec x 0); congruence. Qed.

Lemma orZero_eq x : (orZero x == x)%Q.
Proof.
  unfold orZero. destruct (Qeq_bool x 0) eqn:E; [|reflexivity].
  apply Qeq_bool_iff in E. symmetry. exact E.
Qed.

Lemma toFixed5_eq x y : (x == y)%Q → toFixed5 x = toFixed5 y ∨
  ∃ x' y', toFixed5 x = Exponential x' ∧ toFixed5 y = Exponential y' ∧ (x' == y')%Q.
Proof.
  intros E. unfold toFixed5.
  assert (Qle_bool 0 x = Qle_bool 0 y) as ->.
  { apply eq_true_iff_eq. rewrite !Qle_bool_iff. by rewrite E. }
  assert (Qle_bool (inject_Z (10 ^ 21)) (Qabs x)
          = Qle_bool (inject_Z (10 ^ 21)) (Qabs y)) as ->.
  { apply eq_true_iff_eq. rewrite !Qle_bool_iff. by rewrite E. }
  destruct (Qle_bool _ (Qabs y)); [right; eauto|left].
  by rewrite E.
Qed.

(** Equal costs have the same text: a text that differs shows a cost that
    differs. *)
Lemma toFixed5_differs x y :
  numeral_eqb (toFixed5 x) (toFixed5 y) = false → ¬ (x == y)%Q.
Proof.
  intros D E. destruct (toFixed5_eq x y E) as [H|(x' & y' & Hx & Hy & H)].
  - rewrite H in D. destruct (toFixed5 y); simpl in D.
    + by rewrite String.eqb_refl in D.
    + assert (Qeq_bool value value = true) by (apply Qeq_bool_iff; reflexivity).
      congruence.
  - rewrite Hx, Hy in D. simpl in D.
    apply Qeq_bool_iff in H. congruence.
Qed.

(** ** One turn of each loop *)

Lemma tx_get_eq {A} rule (sel : db → option A) t :
  tx_get rule sel t =
    match rule with
    | ReadsBeforeWrites => if dirty t then inl ReadAfterWrite else inr (sel (view rule t), t)
    | _ => inr (sel (view rule t), t)
    end.
Proof. by destruct rule. Qed.

Lemma tx_get_inv {A} rule (sel : db → option A) t r t' :
  tx_get rule sel t = inr (r, t') →
  t' = t ∧ r = sel (view rule t) ∧ (rule = ReadsBeforeWrites → dirty t = false).
Proof.
  rewrite tx_get_eq.
  destruct rule; [destruct (dirty t) eqn:?|..]; try done; by intros [= <- <-].
Qed.

Lemma tx_get_error {A} rule (sel : db → option A) t e :
  tx_get rule sel t = inl e → e = ReadAfterWrite ∧ rule = ReadsBeforeWrites.
Proof.
  rewrite tx_get_eq. destruct rule; [destruct (dirty t)|..]; try done.
  by intros [= <-].
Qed.

Lemma receiveItem_eq rule order item t :
  receiveItem rule order item t =
    match tx_get rule (λ d, products d !! Item.productId item) t with
    | inl e => inl e
    | inr (None, _) => inl (ProductNotFound (Item.productId item))
    | inr (Some p, _) =>
        match products (staged t) !! Item.productId item with
        | None => inl DocumentNotFound
        | Some q => inr (tt, mktxn (snapshot t) (received order item p q (staged t)) true)
        end
    end.
Proof.
  unfold receiveItem, bind at 1.
  destruct (tx_get _ _ t) as [e|[[p|] t']] eqn:G; try done.
  apply tx_get_inv in G as (-> & _ & _).
  unfold bind, tx_update_product, received.
  destruct (products (staged t) !! Item.productId item) as [q|]; [|done].
  simpl. by destruct (negb _).
Qed.

Lemma shipItem_eq rule order item t :
  shipItem rule order item t =
    match tx_get rule (λ d, products d !! Item.productId item) t with
    | inl e => inl e
    | inr (None, _) => inl (InsufficientStock (Item.name item))
    | inr (Some p, _) =>
        if Product.stock p <? Item.quantity item
        then inl (InsufficientStock (Item.name item))
        else
          match products (staged t) !! Item.productId item with
          | None => inl DocumentNotFound
          | Some q =>
              inr (Item.stamp (orZero (Product.averageCost p)) item,
                   mktxn (snapshot t) (shipped order item p q (staged t)) true)
          end
    end.
Proof.
  unfold shipItem, bind at 1.
  destruct (tx_get _ _ t) as [e|[[p|] t']] eqn:G; try done.
  apply tx_get_inv in G as (-> & _ & _).
  destruct (_ <? _); [done|].
  unfold bind, tx_update_product, shipped.
  by destruct (products (staged t) !! Item.productId item) as [q|].
Qed.
(** ** The handlers, step by step *)

Lemma tx_get_fresh {A} rule (sel : db → option A) d :
  tx_get rule sel (mktxn d d false) = inr (sel d, mktxn d d false).
Proof. by destruct rule. Qed.

Lemma handleReceiveItems_eq rule order d :
  handleReceiveItems rule order d =
    match purchaseOrders d !! Order.id order with
    | None => (d, Failed OrderNotReceivable)
    | Some data =>
        if String.eqb (Order.status data) "Received" then (d, Failed OrderNotReceivable)
        else
          match receiveItems rule order (Order.items order) (mktxn d d false) with
          | inl e => (d, Failed e)
          | inr (_, t) =>
              match purchaseOrders (staged t) !! Order.id order with
              | None => (d, Failed DocumentNotFound)
              | Some o =>
                  (with_purchaseOrders
                     <[Order.id order := Order.set_status "Received" o]> (staged t), Done)
              end
          end
    end.
Proof.
  unfold handleReceiveItems, runTransaction, receiveBody, bind at 1.
  rewrite tx_get_fresh.
  destruct (purchaseOrders d !! Order.id order) as [data|]; [|done].
  destruct (String.eqb _ _); [done|].
  unfold bind. destruct (receiveItems _ _ _ _) as [e|[[] t]]; [done|].
  unfold tx_update_purchaseOrder.
  by destruct (purchaseOrders (staged t) !! Order.id order).
Qed.

Lemma handleShipOrder_eq rule order d :
  handleShipOrder rule order d =
    match shipItems rule order (Order.items order) (mktxn d d false) with
    | inl e => (d, Failed e)
    | inr (updatedItems, t) =>
        match salesOrders (staged t) !! Order.id order with
        | None => (d, Failed DocumentNotFound)
        | Some o =>
            (with_salesOrders
               <[Order.id order := Order.complete updatedItems o]> (staged t), Done)
        end
    end.
Proof.
  unfold handleShipOrder, runTransaction, shipBody, bind.
  destruct (shipItems _ _ _ _) as [e|[us t]]; [done|].
  unfold tx_update_salesOrder.
  by destruct (salesOrders (staged t) !! Order.id order).
Qed.

(** A handler that fails leaves the database as it was. *)
Lemma runTransaction_failed body d d' e :
  runTransaction body d = (d', Failed e) → d' = d.
Proof.
  unfold runTransaction. destruct (body _) as [?|[[] ?]]; congruence.
Qed.

Lemma receiveItems_cons rule order item rest t :
  receiveItems rule order (item :: rest) t =
    match receiveItem rule order item t with
    | inl e => inl e
    | inr (_, t') => receiveItems rule order rest t'
    end.
Proof. simpl. unfold bind. by destruct (receiveItem _ _ _ _) as [|[]]. Qed.

Lemma shipItems_cons rule order item rest t :
  shipItems rule order (item :: rest) t =
    match shipItem rule order item t with
    | inl e => inl e
    | inr (u, t') =>
        match shipItems rule order rest t' with
        | inl e => inl e
        | inr (us, t'') => inr (u :: us, t'')
        end
    end.
Proof.
  simpl. unfold bind. destruct (shipItem _ _ _ _) as [|[u t']]; [done|].
  by destruct (shipItems _ _ _ _) as [|[]].
Qed.

(** What one turn leaves alone. *)
Lemma received_frame order item p q s :
  purchaseOrders (received order item p q s) = purchaseOrders s
  ∧ salesOrders (received order item p q s) = salesOrders s
  ∧ products (received order item p q s) =
      <[Item.productId item :=
          Product.receive (orZeroZ (Product.stock p) + Item.quantity item)
            (newAvgCost (orZeroZ (Product.stock p)) (orZero (Product.averageCost p)) item)
            (Item.cost item) q]> (products s).
Proof. unfold received. by destruct (negb _). Qed.

Lemma shipped_frame order item p q s :
  purchaseOrders (shipped order item p q s) = purchaseOrders s
  ∧ salesOrders (shipped order item p q s) = salesOrders s
  ∧ costLogs (shipped order item p q s) = costLogs s
  ∧ products (shipped order item p q s) =
      <[Item.productId item :=
          Product.set_stock (Product.stock p - Item.quantity item) q]> (products s).
Proof. done. Qed.

(** An order of one line. *)
Lemma receive_single rule order item data p d :
  Order.items order = [item] →
  purchaseOrders d !! Order.id order = Some data →
  Order.status data ≠ "Received" →
  products d !! Item.productId item = Some p →
  handleReceiveItems rule order d =
    (with_purchaseOrders <[Order.id order := Order.set_status "Received" data]>
       (received order item p p d), Done).
Proof.
  intros Hitems Hdata Hstatus Hp. rewrite handleReceiveItems_eq, Hdata.
  destruct (String.eqb_spec (Order.status data) "Received"); [done|].
  rewrite Hitems, receiveItems_cons, receiveItem_eq, tx_get_fresh.
  cbn [staged snapshot receiveItems ret]. rewrite Hp.
  unfold ret. cbn [staged]. destruct (received_frame order item p p d) as (-> & _ & _).
  by rewrite Hdata.
Qed.

Lemma ship_single rule order item o p d :
  Order.items order = [item] →
  products d !! Item.productId item = Some p →
  Item.quantity item ≤ Product.stock p →
  salesOrders d !! Order.id order = Some o →
  handleShipOrder rule order d =
    (with_salesOrders
       <[Order.id order :=
           Order.complete [Item.stamp (orZero (Product.averageCost p)) item] o]>
       (shipped order item p p d), Done).
Proof.
  intros Hitems Hp Hq Ho. rewrite handleShipOrder_eq.
  rewrite Hitems, shipItems_cons, shipItem_eq, tx_get_fresh.
  cbn [staged snapshot shipItems ret]. rewrite Hp.
  destruct (Z.ltb_spec (Product.stock p) (Item.quantity item)); [lia|].
  unfold ret. cbn [staged]. destruct (shipped_frame order item p p d) as (_ & -> & _).
  by rewrite Ho.
Qed.

(** ** Receipts *)

Lemma newAvgCost_eq s a item :
  (newAvgCost (orZeroZ s) (orZero a) item ==
     if 0 <? s + Item.quantity item
     then (inject_Z s * a + inject_Z (Item.quantity item) * Item.cost item)
          / inject_Z (s + Item.quantity item)
     else Item.cost item)%Q.
Proof.
  unfold newAvgCost. rewrite orZeroZ_id.
  destruct (0 <? s + Item.quantity item); [|reflexivity].
  by rewrite orZero_eq.
Qed.

Lemma scenario_holds rule : scenario rule.
Proof.
  intros d pid p po1 po2 so data1 data2 data3 n1 n2 n3 pr1 pr2 pr3 c3
    Hp Hs Ha Hi1 Hi2 Hi3 Hne H1 Hs1 H2 Hs2 H3.
  set (i1 := Item.mk pid 10 n1 pr1 100 None) in *.
  set (i2 := Item.mk pid 5 n2 pr2 130 None) in *.
  set (i3 := Item.mk pid 12 n3 pr3 c3 None) in *.
  (* first receipt *)
  pose proof (receive_single rule po1 i1 data1 p d Hi1 H1) as R1.
  rewrite Hs1 in R1. specialize (R1 ltac:(done) Hp).
  set (d1 := with_purchaseOrders _ (received po1 i1 p p d)) in R1.
  destruct (received_frame po1 i1 p p d) as (Fo1 & Fs1 & Fp1).
  set (p1 := Product.receive _ _ _ p) in Fp1.
  assert (products d1 !! pid = Some p1) as Hp1.
  { unfold d1. simpl. rewrite Fp1. apply lookup_insert_eq. }
  assert (Product.averageCost p1 == 100)%Q as Ha1.
  { unfold p1. cbn [Product.averageCost Product.receive].
    rewrite newAvgCost_eq, Hs. cbn [i1 Item.quantity Item.cost].
    replace (0 <? 0 + 10) with true by done. rewrite Ha. by vm_compute. }
  assert (Product.stock p1 = 10) as Hst1.
  { unfold p1. simpl. by rewrite orZeroZ_id, Hs. }
  clearbody p1.
  (* second receipt *)
  assert (purchaseOrders d1 !! Order.id po2 = Some data2) as H2'.
  { unfold d1. simpl. rewrite lookup_insert_ne by done. by rewrite Fo1. }
  pose proof (receive_single rule po2 i2 data2 p1 d1 Hi2 H2') as R2.
  rewrite Hs2 in R2. specialize (R2 ltac:(done) Hp1).
  set (d2 := with_purchaseOrders _ (received po2 i2 p1 p1 d1)) in R2.
  destruct (received_frame po2 i2 p1 p1 d1) as (Fo2 & Fs2 & Fp2).
  set (p2 := Product.receive _ _ _ p1) in Fp2.
  assert (products d2 !! pid = Some p2) as Hp2.
  { unfold d2. simpl. rewrite Fp2. apply lookup_insert_eq. }
  assert (Product.stock p2 = 15) as Hst2.
  { unfold p2. simpl. by rewrite orZeroZ_id, Hst1. }
  assert (Product.averageCost p2 == 110)%Q as Ha2.
  { unfold p2. cbn [Product.averageCost Product.receive].
    rewrite newAvgCost_eq, Hst1. cbn [i2 Item.quantity Item.cost].
    replace (0 <? 10 + 5) with true by done. rewrite Ha1. by vm_compute. }
  clearbody p2.
  (* shipment *)
  assert (salesOrders d2 !! Order.id so = Some data3) as H3'.
  { unfold d2. simpl. rewrite Fs2. unfold d1. simpl. by rewrite Fs1. }
  pose proof (ship_single rule so i3 data3 p2 d2 Hi3 Hp2) as R3.
  rewrite Hst2 in R3. specialize (R3 ltac:(simpl; lia) H3').
  set (d3 := with_salesOrders _ _) in R3.
  exists d1, d2, d3, p1, p2, (Product.set_stock (Product.stock p2 - 12) p2),
    (Order.complete [Item.stamp (orZero (Product.averageCost p2)) i3] data3),
    (orZero (Product.averageCost p2)).
  split_and!; try done.
  - unfold d3. simpl. apply lookup_insert_eq.
  - simpl. lia.
  - unfold d3. simpl. apply lookup_insert_eq.
  - by rewrite orZero_eq.
Qed.

(** C1.  Every receipt of a line item sets the product's stock to the stock
    that was read plus the quantity, and its average cost to
    (old stock * old average cost + quantity * cost) / new stock when the new
    stock is positive and to the line item's cost otherwise.  Starting from
    stock 0 and average cost 0, receiving 10 at 100 and then 5 at 130 gives
    stock 15 at average cost 110, and shipping 12 then leaves stock 3 at
    average cost 110 with the shipped line stamped costAtSale = 110. *)
Theorem receipt_moving_average rule :
  (∀ order item t t',
     receiveItem rule order item t = inr (tt, t') →
     ∃ p p',
       products (view rule t) !! Item.productId item = Some p
       ∧ products (staged t') !! Item.productId item = Some p'
       ∧ Product.stock p' = Product.stock p + Item.quantity item
       ∧ (Product.averageCost p' ==
            if 0 <? Product.stock p'
            then (inject_Z (Product.stock p) * Product.averageCost p
                  + inject_Z (Item.quantity item) * Item.cost item)
                 / inject_Z (Product.stock p')
            else Item.cost item)%Q)
  ∧ scenario rule.
Proof.
  split; [|apply scenario_holds].
  intros order item t t'. rewrite receiveItem_eq.
  destruct (tx_get _ _ t) as [e|[[p|] t0]] eqn:G; try done.
  apply tx_get_inv in G as (-> & Hp & _).
  destruct (products (staged t) !! Item.productId item) as [q|] eqn:Hq; [|done].
  intros [= <-]. cbn [staged].
  destruct (received_frame order item p q (staged t)) as (_ & _ & ->).
  eexists p, _. split_and!; [done|apply lookup_insert_eq|..].
  - simpl. by rewrite orZeroZ_id.
  - cbn [Product.averageCost Product.stock Product.receive].
    rewrite newAvgCost_eq, orZeroZ_id. reflexivity.
Qed.

Lemma receipt_moving_average_witness :
  ∃ d1 d2 d3 p3 o c,
    handleReceiveItems ReadsBeforeWrites Shop.po1 Shop.start = (d1, Done)
    ∧ handleReceiveItems ReadsBeforeWrites Shop.po2 d1 = (d2, Done)
    ∧ handleShipOrder ReadsBeforeWrites Shop.so1 d2 = (d3, Done)
    ∧ products d3 !! "w" = Some p3
    ∧ Product.stock p3 = 3 ∧ (Product.averageCost p3 == 110)%Q
    ∧ salesOrders d3 !! "so1" = Some o
    ∧ Order.items o = [Item.mk "w" 12 "Acme Widget M" 0 0 (Some c)] ∧ (c == 110)%Q.
Proof.
  destruct (proj2 (receipt_moving_average ReadsBeforeWrites)
              Shop.start "w" Shop.widget Shop.po1 Shop.po2 Shop.so1
              Shop.po1 Shop.po2 Shop.so1 "Acme Widget M" "Acme Widget M" "Acme Widget M"
              0%Q 0%Q 0%Q 0%Q)
    as (d1 & d2 & d3 & p1 & p2 & p3 & o & c & H);
    [reflexivity|reflexivity|reflexivity|reflexivity|reflexivity|reflexivity
    |discriminate|reflexivity|reflexivity|reflexivity|reflexivity|reflexivity|].
  exists d1, d2, d3, p3, o, c. tauto.
Defined.

(** ** The loops *)

Lemma receiveItem_inv rule order item t t' :
  receiveItem rule order item t = inr (tt, t') →
  ∃ p q,
    products (view rule t) !! Item.productId item = Some p
    ∧ products (staged t) !! Item.productId item = Some q
    ∧ (rule = ReadsBeforeWrites → dirty t = false)
    ∧ t' = mktxn (snapshot t) (received order item p q (staged t)) true.
Proof.
  rewrite receiveItem_eq.
  destruct (tx_get _ _ t) as [e|[[p|] t0]] eqn:G; try done.
  apply tx_get_inv in G as (-> & Hp & Hd).
  destruct (products (staged t) !! Item.productId item) as [q|] eqn:Hq; [|done].
  intros [= <-]. by exists p, q.
Qed.

Lemma shipItem_inv rule order item t u t' :
  shipItem rule order item t = inr (u, t') →
  ∃ p q,
    products (view rule t) !! Item.productId item = Some p
    ∧ products (staged t) !! Item.productId item = Some q
    ∧ (rule = ReadsBeforeWrites → dirty t = false)
    ∧ Item.quantity item ≤ Product.stock p
    ∧ u = Item.stamp (orZero (Product.averageCost p)) item
    ∧ t' = mktxn (snapshot t) (shipped order item p q (staged t)) true.
Proof.
  rewrite shipItem_eq.
  destruct (tx_get _ _ t) as [e|[[p|] t0]] eqn:G; try done.
  apply tx_get_inv in G as (-> & Hp & Hd).
  destruct (Z.ltb_spec (Product.stock p) (Item.quantity item)); [done|].
  destruct (products (staged t) !! Item.productId item) as [q|] eqn:Hq; [|done].
  intros [= <- <-]. by exists p, q.
Qed.

(** A property kept by every turn is kept by the loop. *)
Lemma receiveItems_invariant rule order (P : txn → Prop) items t t' :
  (∀ item t t', item ∈ items → P t →
     receiveItem rule order item t = inr (tt, t') → P t') →
  P t → receiveItems rule order items t = inr (tt, t') → P t'.
Proof.
  revert t. induction items as [|item rest IH]; intros t Hstep HP.
  - by intros [= <-].
  - rewrite receiveItems_cons.
    destruct (receiveItem _ _ _ t) as [|[[] t1]] eqn:E; [done|].
    apply IH.
    + intros i u u' Hi. apply Hstep. by right.
    + eapply Hstep; [by left|done..].
Qed.

Lemma shipItems_invariant rule order (P : txn → Prop) items t us t' :
  (∀ item t u t', item ∈ items → P t →
     shipItem rule order item t = inr (u, t') → P t') →
  P t → shipItems rule order items t = inr (us, t') → P t'.
Proof.
  revert t us. induction items as [|item rest IH]; intros t us Hstep HP.
  - by intros [= <- <-].
  - rewrite shipItems_cons.
    destruct (shipItem _ _ _ t) as [|[u t1]] eqn:E; [done|].
    destruct (shipItems _ _ rest t1) as [|[us' t2]] eqn:E'; [done|].
    intros [= <- <-]. eapply IH; [|..|done].
    + intros i v w w' Hi. apply Hstep. by right.
    + eapply Hstep; [by left|done..].
Qed.

Lemma received_logs order item p q s :
  inventoryLogs (received order item p q s) =
    inventoryLogs s ++
      [InvLog.mk (Item.productId item) (Item.name item) In_ (Item.quantity item)
         (orZeroZ (Product.stock p) + Item.quantity item) (Order.orderNumber order)]
  ∧ costLogs (received order item p q s) =
      costLogs s ++
        let oldAvgCost := orZero (Product.averageCost p) in
        let newAvg := newAvgCost (orZeroZ (Product.stock p)) oldAvgCost item in
        if negb (numeral_eqb (toFixed5 oldAvgCost) (toFixed5 newAvg))
        then [CostLog.mk (Item.productId item) (Item.name item) In_
                (Order.orderNumber order) oldAvgCost newAvg]
        else [].
Proof.
  unfold received. destruct (negb _); simpl; [done|]. by rewrite app_nil_r.
Qed.

Lemma shipped_logs order item p q s :
  inventoryLogs (shipped order item p q s) =
    inventoryLogs s ++
      [InvLog.mk (Item.productId item) (Item.name item) Out (- Item.quantity item)
         (Product.stock p - Item.quantity item) (Order.orderNumber order)].
Proof. done. Qed.

Lemma view_same_ids rule t pid :
  same_ids t → products (view rule t) !! pid = None ↔ products (staged t) !! pid = None.
Proof. intros H. destruct rule; simpl; [symmetry; apply H..|done]. Qed.

Lemma insert_same_ids t pid (q v : Product.t) s' :
  same_ids t → products (staged t) !! pid = Some q →
  products s' = <[pid := v]> (products (staged t)) →
  same_ids (mktxn (snapshot t) s' true).
Proof.
  intros H Hq Hs' k. simpl. rewrite Hs'. specialize (H k).
  destruct (decide (pid = k)) as [<-|]; [|by rewrite lookup_insert_ne].
  rewrite lookup_insert_eq. rewrite Hq in H. split; [done|].
  intros Hn. by apply H in Hn.
Qed.

Lemma receiveItem_same_ids rule order item t t' :
  same_ids t → receiveItem rule order item t = inr (tt, t') → same_ids t'.
Proof.
  intros H (p & q & _ & Hq & _ & ->)%receiveItem_inv.
  eapply insert_same_ids; [done..|]. apply received_frame.
Qed.

Lemma shipItem_same_ids rule order item t u t' :
  same_ids t → shipItem rule order item t = inr (u, t') → same_ids t'.
Proof.
  intros H (p & q & _ & Hq & _ & _ & _ & ->)%shipItem_inv.
  eapply insert_same_ids; [done..|]. apply shipped_frame.
Qed.

Lemma receiveItems_same_ids rule order items t t' :
  same_ids t → receiveItems rule order items t = inr (tt, t') → same_ids t'.
Proof.
  apply receiveItems_invariant. intros item u u' _. apply receiveItem_same_ids.
Qed.

Lemma shipItems_same_ids rule order items t us t' :
  same_ids t → shipItems rule order items t = inr (us, t') → same_ids t'.
Proof.
  apply shipItems_invariant. intros item u v u' _. apply shipItem_same_ids.
Qed.

(** The loops leave the snapshot and the orders alone. *)
Lemma receiveItems_frame rule order items t t' :
  receiveItems rule order items t = inr (tt, t') →
  snapshot t' = snapshot t
  ∧ purchaseOrders (staged t') = purchaseOrders (staged t)
  ∧ salesOrders (staged t') = salesOrders (staged t).
Proof.
  apply (receiveItems_invariant rule order
    (λ u, snapshot u = snapshot t
          ∧ purchaseOrders (staged u) = purchaseOrders (staged t)
          ∧ salesOrders (staged u) = salesOrders (staged t))); [|done].
  intros item u u' _ (H1 & H2 & H3) (p & q & _ & _ & _ & ->)%receiveItem_inv.
  simpl. by destruct (received_frame order item p q (staged u)) as (-> & -> & _).
Qed.

Lemma shipItems_frame rule order items t us t' :
  shipItems rule order items t = inr (us, t') →
  snapshot t' = snapshot t
  ∧ purchaseOrders (staged t') = purchaseOrders (staged t)
  ∧ salesOrders (staged t') = salesOrders (staged t)
  ∧ costLogs (staged t') = costLogs (staged t).
Proof.
  apply (shipItems_invariant rule order
    (λ u, snapshot u = snapshot t
          ∧ purchaseOrders (staged u) = purchaseOrders (staged t)
          ∧ salesOrders (staged u) = salesOrders (staged t)
          ∧ costLogs (staged u) = costLogs (staged t))); [|done].
  intros item u v u' _ (H1 & H2 & H3 & H4)
    (p & q & _ & _ & _ & _ & _ & ->)%shipItem_inv.
  done.
Qed.

(** What can go wrong in one turn of the receipt loop. *)
Lemma receiveItem_error rule order item t e :
  same_ids t → receiveItem rule order item t = inl e →
  (e = ReadAfterWrite ∧ rule = ReadsBeforeWrites)
  ∨ (e = ProductNotFound (Item.productId item)
     ∧ products (snapshot t) !! Item.productId item = None).
Proof.
  intros Hids. rewrite receiveItem_eq.
  destruct (tx_get _ _ t) as [e'|[[p|] t0]] eqn:G.
  - intros [= <-]. left. by apply tx_get_error in G.
  - apply tx_get_inv in G as (-> & Hp & _).
    destruct (products (staged t) !! Item.productId item) eqn:Hq; [done|].
    apply (view_same_ids rule) in Hq; [congruence|done].
  - apply tx_get_inv in G as (-> & Hp & _). intros [= <-]. right. split; [done|].
    by apply Hids, (view_same_ids rule).
Qed.

(** What can go wrong in the receipt loop: a read after a write, or a
    product that does not exist. *)
Lemma receiveItems_error rule order items t e :
  same_ids t → receiveItems rule order items t = inl e →
  (e = ReadAfterWrite ∧ rule = ReadsBeforeWrites)
  ∨ ∃ item, item ∈ items ∧ e = ProductNotFound (Item.productId item)
            ∧ products (snapshot t) !! Item.productId item = None.
Proof.
  revert t. induction items as [|item rest IH]; intros t Hids; [done|].
  rewrite receiveItems_cons.
  destruct (receiveItem _ _ _ t) as [e'|[[] t1]] eqn:E.
  - intros [= ->].
    destruct (receiveItem_error _ _ _ _ _ Hids E) as [?|[-> Hn]]; [by left|].
    right. exists item. split; [by left|done].
  - intros Hrest.
    destruct (IH t1 (receiveItem_same_ids _ _ _ _ _ Hids E) Hrest)
      as [?|(i & Hi & -> & Hn)]; [by left|].
    right. exists i. split; [by right|]. split; [done|].
    apply receiveItem_inv in E as (p & q & _ & _ & _ & ->). done.
Qed.

(** Under the rule of the Firestore client, an order that commits has at
    most one line. *)
Lemma receive_commits_one_line rule order d d' :
  rule = ReadsBeforeWrites →
  handleReceiveItems rule order d = (d', Done) →
  (length (Order.items order) ≤ 1)%nat.
Proof.
  intros -> H. rewrite handleReceiveItems_eq in H.
  destruct (purchaseOrders d !! Order.id order); [|done].
  destruct (String.eqb _ _); [done|].
  destruct (Order.items order) as [|i [|j rest]]; simpl; [lia..|].
  rewrite receiveItems_cons in H.
  destruct (receiveItem _ _ i _) as [|[[] t1]] eqn:E; [done|].
  apply receiveItem_inv in E as (p & q & _ & _ & _ & ->).
  by rewrite receiveItems_cons, receiveItem_eq in H.
Qed.

Lemma ship_commits_one_line rule order d d' :
  rule = ReadsBeforeWrites →
  handleShipOrder rule order d = (d', Done) →
  (length (Order.items order) ≤ 1)%nat.
Proof.
  intros -> H. rewrite handleShipOrder_eq in H.
  destruct (Order.items order) as [|i [|j rest]]; simpl; [lia..|].
  rewrite shipItems_cons in H.
  destruct (shipItem _ _ i _) as [|[u t1]] eqn:E; [done|].
  apply shipItem_inv in E as (p & q & _ & _ & _ & _ & _ & ->).
  by rewrite shipItems_cons, shipItem_eq in H.
Qed.

(** ** The status guard of the receipt *)




(** After a receipt has been committed, the order is not received again. *)
Lemma receive_not_reentrant rule order d d' order' :
  handleReceiveItems rule order d = (d', Done) →
  Order.id order' = Order.id order →
  handleReceiveItems rule order' d' = (d', Failed OrderNotReceivable).
Proof.
  intros H Hid.
  assert (∃ o, purchaseOrders d' !! Order.id order = Some o
               ∧ Order.status o = "Received") as (o & Ho & Hs).
  { rewrite handleReceiveItems_eq in H.
    destruct (purchaseOrders d !! Order.id order); [|done].
    destruct (String.eqb _ _); [done|].
    destruct (receiveItems _ _ _ _) as [e|[[] tf]]; [done|].
    destruct (purchaseOrders (staged tf) !! Order.id order) as [o|]; [|done].
    injection H as <-. eexists. simpl. by rewrite lookup_insert_eq. }
  rewrite handleReceiveItems_eq, Hid, Ho, Hs. done.
Qed.

(** ** Quantities *)

(** Every way a receipt can fail. *)
Lemma handleReceiveItems_failed rule order d e :
  (handleReceiveItems rule order d).2 = Failed e →
  e = OrderNotReceivable
  ∨ (e = ReadAfterWrite ∧ rule = ReadsBeforeWrites)
  ∨ ∃ item, item ∈ Order.items order ∧ e = ProductNotFound (Item.productId item)
            ∧ products d !! Item.productId item = None.
Proof.
  rewrite handleReceiveItems_eq.
  destruct (purchaseOrders d !! Order.id order) as [data|] eqn:Hd;
    [|intros [= <-]; by left].
  destruct (String.eqb _ _); [intros [= <-]; by left|].
  destruct (receiveItems _ _ _ _) as [e'|[[] tf]] eqn:E.
  - intros [= <-]. right. by apply receiveItems_error in E.
  - apply receiveItems_frame in E as (_ & -> & _). simpl. by rewrite Hd.
Qed.

Lemma handleSubmit_positive partyName items saved :
  handleSubmit partyName items = Some saved →
  ∀ item, item ∈ saved.2 → item ∈ items ∧ 0 < Item.quantity item.
Proof.
  unfold handleSubmit. destruct (String.eqb _ _); [done|].
  destruct (filter _ items) as [|i l] eqn:F; [done|].
  intros [= <-] item. simpl. rewrite <- F, list_elem_of_filter. tauto.
Qed.

(** A purchase order saved from the form is Pending and has only lines of a
    positive quantity. *)
Lemma drafted_order_positive partyName items saved id orderNumber d :
  handleSubmit partyName items = Some saved →
  ∃ o, purchaseOrders (handleAddOrder id orderNumber saved d) !! id = Some o
       ∧ Order.status o = "Pending"
       ∧ ∀ item, item ∈ Order.items o → 0 < Item.quantity item.
Proof.
  intros H. eexists. split; [apply lookup_insert_eq|]. split; [done|].
  intros item Hin. by apply (handleSubmit_positive partyName items saved).
Qed.

(** C9 (amended).  A receipt checks no quantity.  It fails only because of
    the status guard, a product that does not exist, or a read the store
    rejects; a line item of any quantity, positive or not, is applied like
    every other.  Quantities that are not positive are dropped when the
    order is drafted: the form saves only line items with quantity > 0. *)
Theorem receive_quantity_unchecked rule :
  (∀ order d e,
     (handleReceiveItems rule order d).2 = Failed e →
     e = OrderNotReceivable
     ∨ (e = ReadAfterWrite ∧ rule = ReadsBeforeWrites)
     ∨ ∃ item, item ∈ Order.items order ∧ e = ProductNotFound (Item.productId item)
               ∧ products d !! Item.productId item = None)
  ∧ (∀ order item data p d,
       Order.items order = [item] →
       purchaseOrders d !! Order.id order = Some data →
       Order.status data ≠ "Received" →
       products d !! Item.productId item = Some p →
       ∃ d' p',
         handleReceiveItems rule order d = (d', Done)
         ∧ products d' !! Item.productId item = Some p'
         ∧ Product.stock p' = Product.stock p + Item.quantity item
         ∧ inventoryLogs d' =
             inventoryLogs d ++
               [InvLog.mk (Item.productId item) (Item.name item) In_
                  (Item.quantity item) (Product.stock p') (Order.orderNumber order)])
  ∧ (∀ partyName items saved,
       handleSubmit partyName items = Some saved →
       ∀ item, item ∈ saved.2 → 0 < Item.quantity item).
Proof.
  split_and!.
  - apply handleReceiveItems_failed.
  - intros order item data p d Hi Hd Hs Hp.
    eexists _, _. split; [by apply (receive_single rule order item data p d)|].
    simpl. destruct (received_frame order item p p d) as (_ & _ & ->).
    destruct (received_logs order item p p d) as (-> & _).
    rewrite lookup_insert_eq. simpl. by rewrite orZeroZ_id.
  - intros partyName items saved H item Hin.
    by apply (handleSubmit_positive partyName items saved).
Qed.

Lemma receive_quantity_unchecked_witness :
  ∃ d' p',
    handleReceiveItems ReadsBeforeWrites Returned.negative Returned.start = (d', Done)
    ∧ products d' !! "w" = Some p'
    ∧ Product.stock p' = -2.
Proof.
  destruct (proj1 (proj2 (receive_quantity_unchecked ReadsBeforeWrites))
              Returned.negative (Shop.line (-2) 50) Returned.negative Shop.widget
              Returned.start eq_refl eq_refl ltac:(discriminate) eq_refl)
    as (d' & p' & H1 & H2 & H3 & _).
  exists d', p'. split_and!; [exact H1|exact H2|exact H3].
Defined.

(** C9 as stated fails: a line item of quantity 0 does not make the receipt
    fail. *)
Lemma receive_quantity_counterexample :
  ¬ (∀ rule order d item,
       item ∈ Order.items order → Item.quantity item ≤ 0 →
       ∃ e, handleReceiveItems rule order d = (d, Failed e)).
Proof.
  intros H.
  destruct (H ReadsBeforeWrites Returned.zero Returned.start (Shop.line 0 50))
    as [e He]; [by left|done|].
  apply (f_equal snd) in He. vm_compute in He. discriminate.
Qed.

(** ** Shipping twice *)

(** C3 does not hold for shipments.  A sales order of 2 units is shipped
    from a stock of 5.  The order is then Completed, and shipping it again succeeds:
    the stock goes from 3 to 1 and a second entry is appended to the
    inventory log. *)
Theorem ship_again rule :
  ∃ d1 o1 p1 d2 p2,
    handleShipOrder rule Stocked.so Stocked.start = (d1, Done)
    ∧ salesOrders d1 !! "so2" = Some o1
    ∧ Order.status o1 = "Completed"
    ∧ products d1 !! "w" = Some p1 ∧ Product.stock p1 = 3
    ∧ length (inventoryLogs d1) = 1%nat
    ∧ handleShipOrder rule o1 d1 = (d2, Done)
    ∧ products d2 !! "w" = Some p2 ∧ Product.stock p2 = 1
    ∧ length (inventoryLogs d2) = 2%nat.
Proof.
  destruct rule; eexists _, _, _, _, _; split_and!; try (vm_compute; reflexivity).
Qed.

(** ** What a shipment changes *)

Lemma stock_of_refl p : stock_of p p.
Proof. by destruct p. Qed.

Lemma stock_only_refl d : stock_only d d.
Proof. intros pid. destruct (products d !! pid); [apply stock_of_refl|done]. Qed.

Lemma view_stock_only rule t pid p :
  stock_only (staged t) (snapshot t) →
  products (view rule t) !! pid = Some p →
  ∃ p0, products (snapshot t) !! pid = Some p0 ∧ stock_of p p0.
Proof.
  intros H Hp. specialize (H pid).
  destruct rule; simpl in Hp; try (exists p; split; [done|apply stock_of_refl]).
  rewrite Hp in H. destruct (products (snapshot t) !! pid) as [p0|]; [|done].
  by exists p0.
Qed.

Lemma shipItem_stock_only rule order item t u t' :
  stock_only (staged t) (snapshot t) →
  shipItem rule order item t = inr (u, t') →
  stock_only (staged t') (snapshot t').
Proof.
  intros H (p & q & _ & Hq & _ & _ & _ & ->)%shipItem_inv pid. simpl.
  specialize (H pid).
  destruct (decide (Item.productId item = pid)) as [<-|Hne].
  - rewrite lookup_insert_eq. rewrite Hq in H.
    destruct (products (snapshot t) !! Item.productId item) as [p0|]; [|done].
    unfold stock_of in *. rewrite H. by destruct p0.
  - by rewrite lookup_insert_ne.
Qed.

Lemma shipItems_stock_only rule order items t us t' :
  stock_only (staged t) (snapshot t) →
  shipItems rule order items t = inr (us, t') →
  stock_only (staged t') (snapshot t').
Proof.
  apply (shipItems_invariant rule order (λ u, stock_only (staged u) (snapshot u))).
  intros item u v u' _. apply shipItem_stock_only.
Qed.

(** Products that the order does not name are left alone. *)
Lemma shipItems_other rule order items t us t' pid :
  shipItems rule order items t = inr (us, t') →
  pid ∉ map Item.productId items →
  products (staged t') !! pid = products (staged t) !! pid.
Proof.
  intros H Hpid. revert H.
  apply (shipItems_invariant rule order
    (λ u, products (staged u) !! pid = products (staged t) !! pid)); [|done].
  intros item u v u' Hin Hu (p & q & _ & _ & _ & _ & _ & ->)%shipItem_inv.
  simpl. rewrite lookup_insert_ne; [done|].
  intros <-. apply Hpid, list_elem_of_In, in_map, list_elem_of_In, Hin.
Qed.

Lemma receiveItems_other rule order items t t' pid :
  receiveItems rule order items t = inr (tt, t') →
  pid ∉ map Item.productId items →
  products (staged t') !! pid = products (staged t) !! pid.
Proof.
  intros H Hpid. revert H.
  apply (receiveItems_invariant rule order
    (λ u, products (staged u) !! pid = products (staged t) !! pid)); [|done].
  intros item u u' Hin Hu (p & q & _ & _ & _ & ->)%receiveItem_inv.
  simpl. destruct (received_frame order item p q (staged u)) as (_ & _ & ->).
  rewrite lookup_insert_ne; [done|].
  intros <-. apply Hpid, list_elem_of_In, in_map, list_elem_of_In, Hin.
Qed.

(** The line items as they are stored with the completed order. *)
Lemma shipItems_stamps rule order items t us t' :
  stock_only (staged t) (snapshot t) →
  shipItems rule order items t = inr (us, t') →
  Forall2 (λ item u,
             ∃ p c, products (snapshot t) !! Item.productId item = Some p
                    ∧ u = Item.stamp c item ∧ (c == Product.averageCost p)%Q)
    items us.
Proof.
  revert t us. induction items as [|item rest IH]; intros t us Hso.
  - intros [= <- <-]. constructor.
  - rewrite shipItems_cons.
    destruct (shipItem _ _ _ t) as [|[u t1]] eqn:E; [done|].
    destruct (shipItems _ _ rest t1) as [|[us' t2]] eqn:E'; [done|].
    intros [= <- <-].
    pose proof (shipItem_stock_only _ _ _ _ _ _ Hso E) as Hso1.
    apply IH in E'; [|done].
    apply shipItem_inv in E as (p & q & Hp & _ & _ & _ & -> & ->).
    constructor; [|exact E'].
    destruct (view_stock_only _ _ _ _ Hso Hp) as (p0 & Hp0 & Hpp0).
    exists p0, (orZero (Product.averageCost p)). split_and!; [done..|].
    rewrite orZero_eq, Hpp0. reflexivity.
Qed.

(** With one line per product, each product loses the quantity of its
    line. *)
Lemma shipItems_stock rule order items t us t' :
  shipItems rule order items t = inr (us, t') →
  NoDup (map Item.productId items) →
  (∀ item, item ∈ items →
     products (staged t) !! Item.productId item
     = products (snapshot t) !! Item.productId item) →
  ∀ item, item ∈ items →
    ∃ p, products (snapshot t) !! Item.productId item = Some p
         ∧ products (staged t') !! Item.productId item
           = Some (Product.set_stock (Product.stock p - Item.quantity item) p).
Proof.
  revert t us. induction items as [|i rest IH]; intros t us H Hnd Hfresh item Hin.
  { by apply elem_of_nil in Hin. }
  rewrite shipItems_cons in H.
  destruct (shipItem _ _ _ t) as [|[u t1]] eqn:E; [done|].
  destruct (shipItems _ _ rest t1) as [|[us' t2]] eqn:E'; [done|].
  injection H as <- <-.
  apply NoDup_cons in Hnd as [Hi Hnd]. fold (map Item.productId rest) in *.
  apply shipItem_inv in E as (p & q & Hp & Hq & _ & _ & _ & ->).
  assert (products (snapshot t) !! Item.productId i = Some p ∧ q = p) as [Hp0 ->].
  { pose proof (Hfresh i ltac:(by left)) as Hf.
    destruct rule; simpl in Hp; split; congruence. }
  apply elem_of_cons in Hin as [->|Hin].
  - exists p. split; [done|].
    rewrite (shipItems_other _ _ _ _ _ _ _ E' Hi). simpl. apply lookup_insert_eq.
  - apply (IH _ _ E' Hnd); [|done].
    intros j Hj. simpl. rewrite lookup_insert_ne; [by apply Hfresh; right|].
    intros Heq. apply Hi. rewrite Heq.
    apply list_elem_of_In, in_map, list_elem_of_In, Hj.
Qed.

(** What a shipment that succeeds leaves in the store. *)
Lemma handleShipOrder_effect rule order d d' :
  handleShipOrder rule order d = (d', Done) →
  stock_only d' d
  ∧ (∀ pid, pid ∉ map Item.productId (Order.items order) →
            products d' !! pid = products d !! pid)
  ∧ (rule = ReadsBeforeWrites ∨ NoDup (map Item.productId (Order.items order)) →
     ∀ item, item ∈ Order.items order →
       ∃ p, products d !! Item.productId item = Some p
            ∧ products d' !! Item.productId item
              = Some (Product.set_stock (Product.stock p - Item.quantity item) p))
  ∧ (∃ o updatedItems,
       salesOrders d !! Order.id order = Some o
       ∧ salesOrders d' = <[Order.id order := Order.complete updatedItems o]> (salesOrders d)
       ∧ Forall2 (λ item u,
                    ∃ p c, products d !! Item.productId item = Some p
                           ∧ u = Item.stamp c item ∧ (c == Product.averageCost p)%Q)
           (Order.items order) updatedItems)
  ∧ purchaseOrders d' = purchaseOrders d
  ∧ costLogs d' = costLogs d.
Proof.
  intros Hdone.
  assert (rule = ReadsBeforeWrites → NoDup (map Item.productId (Order.items order)))
    as Hone.
  { intros Hrule. pose proof (ship_commits_one_line _ _ _ _ Hrule Hdone) as Hlen.
    destruct (Order.items order) as [|i [|j rest]]; simpl in *;
      [constructor|repeat constructor; set_solver|lia]. }
  revert Hdone. rewrite handleShipOrder_eq.
  destruct (shipItems _ _ _ _) as [e|[us t]] eqn:E; [done|].
  destruct (salesOrders (staged t) !! Order.id order) as [o|] eqn:Ho; [|done].
  intros [= <-].
  destruct (shipItems_frame _ _ _ _ _ _ E) as (Hsnap & Hpo & Hso & Hcl).
  simpl in Hsnap, Hpo, Hso, Hcl.
  pose proof (shipItems_stock_only rule order _ (mktxn d d false) _ _
                (stock_only_refl d) E) as H1.
  rewrite Hsnap in H1.
  split_and!; simpl; try done.
  - intros pid Hpid. by rewrite (shipItems_other _ _ _ _ _ _ _ E Hpid).
  - intros Hnd item Hin.
    assert (NoDup (map Item.productId (Order.items order))) as Hnd'
      by (destruct Hnd; auto).
    by apply (shipItems_stock _ _ _ _ _ _ E Hnd').
  - exists o, us. rewrite Hso in Ho. split_and!; [done|by rewrite Hso|].
    apply (shipItems_stamps rule order _ (mktxn d d false) _ _ (stock_only_refl d) E).
Qed.


(** C7.  A shipment that succeeds changes nothing of a product but its
    stock: average cost, cost, names and prices are what they were, no
    product appears or disappears, and a product the order does not name is
    untouched.  The stock of each shipped product is its stock before less
    the quantity of its line (an order that commits has one line per product
    when the store rejects reads after writes; under the other rules this is
    asked of the order).  The order is stored as Completed with, for each
    line, the same line with costAtSale set to the average cost of its
    product at the shipment.  Other sales orders, purchase orders and the
    cost log are left alone. *)
Theorem shipment_effect rule order d d' :
  handleShipOrder rule order d = (d', Done) →
  stock_only d' d
  ∧ (∀ pid, products d' !! pid = None ↔ products d !! pid = None)
  ∧ (∀ pid p p', products d !! pid = Some p → products d' !! pid = Some p' →
       Product.averageCost p' = Product.averageCost p
       ∧ Product.cost p' = Product.cost p
       ∧ Product.brand p' = Product.brand p
       ∧ Product.name p' = Product.name p
       ∧ Product.spec p' = Product.spec p
       ∧ Product.price_retail p' = Product.price_retail p
       ∧ Product.price_bronze p' = Product.price_bronze p
       ∧ Product.price_silver p' = Product.price_silver p
       ∧ Product.price_gold p' = Product.price_gold p)
  ∧ (∀ pid, pid ∉ map Item.productId (Order.items order) →
            products d' !! pid = products d !! pid)
  ∧ (rule = ReadsBeforeWrites ∨ NoDup (map Item.productId (Order.items order)) →
     ∀ item, item ∈ Order.items order →
       ∃ p p', products d !! Item.productId item = Some p
               ∧ products d' !! Item.productId item = Some p'
               ∧ Product.stock p' = Product.stock p - Item.quantity item
               ∧ p' = Product.set_stock (Product.stock p - Item.quantity item) p)
  ∧ (∃ o o' updatedItems,
       salesOrders d !! Order.id order = Some o
       ∧ salesOrders d' !! Order.id order = Some o'
       ∧ Order.status o' = "Completed"
       ∧ Order.items o' = updatedItems
       ∧ Order.id o' = Order.id o
       ∧ Order.orderNumber o' = Order.orderNumber o
       ∧ salesOrders d' = <[Order.id order := Order.complete updatedItems o]> (salesOrders d)
       ∧ Forall2 (λ item u,
                    ∃ p c, products d !! Item.productId item = Some p
                           ∧ Item.costAtSale u = Some c
                           ∧ (c == Product.averageCost p)%Q
                           ∧ Item.productId u = Item.productId item
                           ∧ Item.quantity u = Item.quantity item
                           ∧ Item.name u = Item.name item
                           ∧ Item.price u = Item.price item
                           ∧ Item.cost u = Item.cost item
                           ∧ u = Item.stamp c item)
           (Order.items order) updatedItems)
  ∧ (∀ key, key ≠ Order.id order → salesOrders d' !! key = salesOrders d !! key)
  ∧ purchaseOrders d' = purchaseOrders d
  ∧ costLogs d' = costLogs d.
Proof.
  intros Hdone.
  destruct (handleShipOrder_effect rule order d d' Hdone)
    as (Hso & Hother & Hstock & (o & us & Ho & Hos & Hst) & Hpo & Hcl).
  split_and!; try done.
  - intros pid. specialize (Hso pid).
    destruct (products d' !! pid), (products d !! pid); done.
  - intros pid p p' Hp Hp'. specialize (Hso pid). rewrite Hp, Hp' in Hso.
    unfold stock_of in Hso. rewrite Hso. done.
  - intros Hnd item Hin. destruct (Hstock Hnd item Hin) as (p & Hp & Hp').
    exists p, (Product.set_stock (Product.stock p - Item.quantity item) p).
    done.
  - exists o, (Order.complete us o), us. split_and!; try done.
    + rewrite Hos. apply lookup_insert_eq.
    + eapply Forall2_impl; [exact Hst|].
      intros item u (p & c & Hp & -> & Hc). exists p, c. done.
  - intros key Hkey. rewrite Hos. by apply lookup_insert_ne.
Qed.

Lemma shipment_effect_witness :
  ∃ d' p' o' u,
    handleShipOrder ReadsBeforeWrites Stocked.so Stocked.start = (d', Done)
    ∧ products d' !! "w" = Some p'
    ∧ Product.stock p' = 3
    ∧ Product.averageCost p' = 110%Q
    ∧ Product.cost p' = 130%Q
    ∧ salesOrders d' !! "so2" = Some o'
    ∧ Order.status o' = "Completed"
    ∧ Order.items o' = [u]
    ∧ Item.quantity u = 2
    ∧ ∃ c, Item.costAtSale u = Some c ∧ (c == 110)%Q.
Proof.
  destruct (shipment_effect ReadsBeforeWrites Stocked.so Stocked.start _ eq_refl)
    as (_ & _ & Hf & _ & H & (o & o' & us & Ho & Ho' & Hst & Hit & _ & _ & _ & Hus) & _).
  destruct (H ltac:(by left) (Shop.line 2 0) ltac:(by left))
    as (p & p' & Hp & Hp' & Hs & _).
  destruct (Hf "w" p p' Hp Hp') as (Ha & Hc & _).
  injection Hp as <-.
  apply Forall2_cons_inv_l in Hus as (u & us' & (q & c & Hq & Hcs & Hc110 & _ & Hqu & _)
                                      & Hnil & ->).
  apply Forall2_nil_inv_l in Hnil as ->.
  injection Hq as <-.
  eexists _, p', o', u. split; [reflexivity|].
  split_and!;
    [exact Hp'|exact Hs|exact Ha|exact Hc|exact Ho'|exact Hst|exact Hit|exact Hqu|].
  exists c. split; [exact Hcs|exact Hc110].
Defined.

(** ** The cost log *)

Lemma handleShipOrder_costLogs rule order d d' :
  handleShipOrder rule order d = (d', Done) → costLogs d' = costLogs d.
Proof.
  rewrite handleShipOrder_eq.
  destruct (shipItems _ _ _ _) as [e|[us t]] eqn:E; [done|].
  destruct (salesOrders (staged t) !! Order.id order); [|done].
  intros [= <-]. simpl. by apply shipItems_frame in E as (_ & _ & _ & ->).
Qed.

(** C8 (amended).  No shipment writes the cost log.  A received line item
    appends one entry exactly when the texts [toFixed(5)] of the old and of
    the new average cost differ, and none when they are the same; an entry
    that is written records two costs that differ. *)
Theorem cost_log_entries rule :
  (∀ order d, costLogs (handleShipOrder rule order d).1 = costLogs d)
  ∧ (∀ order item t t',
       receiveItem rule order item t = inr (tt, t') →
       ∃ p,
         products (view rule t) !! Item.productId item = Some p
         ∧ let oldAvgCost := orZero (Product.averageCost p) in
           let newAvg := newAvgCost (orZeroZ (Product.stock p)) oldAvgCost item in
           costLogs (staged t') =
             costLogs (staged t) ++
               (if numeral_eqb (toFixed5 oldAvgCost) (toFixed5 newAvg) then []
                else [CostLog.mk (Item.productId item) (Item.name item) In_
                        (Order.orderNumber order) oldAvgCost newAvg])
           ∧ (numeral_eqb (toFixed5 oldAvgCost) (toFixed5 newAvg) = false →
              ¬ (oldAvgCost == newAvg)%Q)).
Proof.
  split.
  - intros order d. destruct (handleShipOrder rule order d) as [d' [|e]] eqn:E; simpl.
    + by apply handleShipOrder_costLogs in E.
    + by apply runTransaction_failed in E as ->.
  - intros order item t t' (p & q & Hp & _ & _ & ->)%receiveItem_inv.
    exists p. split; [done|]. cbv zeta. cbn [staged].
    destruct (received_logs order item p q (staged t)) as (_ & ->).
    cbv zeta. split; [by destruct (numeral_eqb _ _)|apply toFixed5_differs].
Qed.

Lemma cost_log_entries_witness :
  match receiveItem ReadsBeforeWrites Shop.po1 (Shop.line 10 100)
          (mktxn Shop.start Shop.start false) with
  | inr (_, t') => length (costLogs (staged t')) = 1%nat
  | inl _ => False
  end.
Proof.
  destruct (receiveItem _ _ _ _) as [e|[[] t']] eqn:E.
  - vm_compute in E. discriminate.
  - destruct (proj2 (cost_log_entries ReadsBeforeWrites) _ _ _ _ E) as (p & Hp & H & _).
    injection Hp as <-. rewrite H. reflexivity.
Defined.

(** C8 as stated fails: the average cost moves from 1 to 1000002/1000001 and
    no entry is written. *)
Lemma cost_log_counterexample :
  ¬ (∀ rule order item d d' p p',
       Order.items order = [item] →
       products d !! Item.productId item = Some p →
       handleReceiveItems rule order d = (d', Done) →
       products d' !! Item.productId item = Some p' →
       ¬ (Product.averageCost p == Product.averageCost p')%Q →
       costLogs d' ≠ costLogs d).
Proof.
  intros H.
  refine (H ReadsBeforeWrites Bulk.po (Shop.line 1 2) Bulk.start _ Bulk.widget _
            eq_refl eq_refl eq_refl eq_refl _ _).
  - vm_compute. discriminate.
  - vm_compute. reflexivity.
Qed.

(** ** The unit cost of a product *)

Lemma lastFor_cons pid i rest :
  lastFor pid (i :: rest) =
    match lastFor pid rest with
    | Some j => Some j
    | None => if decide (Item.productId i = pid) then Some i else None
    end.
Proof.
  unfold lastFor. rewrite filter_cons.
  destruct (decide (Item.productId i = pid)); [|by destruct (last _)].
  rewrite last_cons. by destruct (last _).
Qed.

Lemma lastFor_None pid items :
  lastFor pid items = None → pid ∉ map Item.productId items.
Proof.
  induction items as [|i rest IH]; [intros _ []%elem_of_nil|].
  rewrite lastFor_cons. destruct (lastFor pid rest); [done|].
  destruct (decide _) as [|Hne]; [done|]. intros _.
  simpl. intros [->|?]%elem_of_cons; [done|]. by apply IH.
Qed.

Lemma receiveItems_cost rule order items t t' pid item :
  receiveItems rule order items t = inr (tt, t') →
  lastFor pid items = Some item →
  ∃ p', products (staged t') !! pid = Some p' ∧ Product.cost p' = Item.cost item.
Proof.
  revert t. induction items as [|i rest IH]; intros t; [done|].
  rewrite receiveItems_cons, lastFor_cons.
  destruct (receiveItem _ _ _ t) as [|[[] t1]] eqn:E; [done|].
  intros Hrest Hlast.
  destruct (lastFor pid rest) as [j|] eqn:Hj.
  - injection Hlast as ->. by apply (IH t1).
  - destruct (decide _) as [<-|]; [|done]. injection Hlast as ->.
    rewrite (receiveItems_other _ _ _ _ _ _ Hrest (lastFor_None _ _ Hj)).
    apply receiveItem_inv in E as (p & q & _ & _ & _ & ->). simpl.
    destruct (received_frame order item p q (staged t)) as (_ & _ & ->).
    rewrite lookup_insert_eq. by eexists.
Qed.

(** C10.  A receipt that commits also overwrites the product's [cost] with
    the unit cost of the line item, the last one of the order for that
    product (when the store rejects reads after writes, the order has this
    one line).  Picking the product in the order form then gives the drafted
    line this cost as its unit cost: the same number, 0 when the cost is
    0. *)
Theorem receipt_sets_cost rule order d d' item :
  handleReceiveItems rule order d = (d', Done) →
  lastFor (Item.productId item) (Order.items order) = Some item →
  (rule = ReadsBeforeWrites → Order.items order = [item])
  ∧ ∃ p',
      products d' !! Item.productId item = Some p'
      ∧ Product.cost p' = Item.cost item
      ∧ ∀ isSales selectedTier draft index line,
          draft !! index = Some line →
          ∃ line',
            handleItemChange isSales selectedTier (products d') draft index
              (ProductIdField (Item.productId item)) = Some (<[index := line']> draft)
            ∧ Item.productId line' = Item.productId item
            ∧ Item.quantity line' = Item.quantity line
            ∧ (Item.cost line' == Item.cost item)%Q
            ∧ (¬ (Item.cost item == 0)%Q → Item.cost line' = Item.cost item)
            ∧ ((Item.cost item == 0)%Q → Item.cost line' = 0%Q).
Proof.
  intros H Hlast. split.
  { intros Hrule. pose proof (receive_commits_one_line _ _ _ _ Hrule H) as Hlen.
    unfold lastFor in Hlast.
    destruct (Order.items order) as [|i [|j rest]]; simpl in Hlen; [done| |lia].
    rewrite filter_cons, filter_nil in Hlast.
    destruct (decide _); [|done]. simpl in Hlast. congruence. }
  rewrite handleReceiveItems_eq in H.
  destruct (purchaseOrders d !! Order.id order); [|done].
  destruct (String.eqb _ _); [done|].
  destruct (receiveItems _ _ _ _) as [e|[[] tf]] eqn:E; [done|].
  destruct (purchaseOrders (staged tf) !! Order.id order) as [o|]; [|done].
  injection H as <-.
  destruct (receiveItems_cost _ _ _ _ _ _ _ E Hlast) as (p' & Hp' & Hc).
  exists p'. split_and!; [done..|].
  intros isSales selectedTier draft index line Hline.
  unfold handleItemChange. rewrite Hline. eexists. split; [reflexivity|].
  unfold pickProduct. simpl. rewrite Hp', Hc.
  assert (∀ l : Item.t, Item.cost l = orZero (Item.cost item) →
            (Item.cost l == Item.cost item)%Q
            ∧ (¬ (Item.cost item == 0)%Q → Item.cost l = Item.cost item)
            ∧ ((Item.cost item == 0)%Q → Item.cost l = 0%Q)) as Hcost.
  { intros l ->. split; [apply orZero_eq|]. unfold orZero.
    destruct (Qeq_bool (Item.cost item) 0) eqn:Hz.
    - apply Qeq_bool_iff in Hz. split; [by intros []|done].
    - split; [done|]. intros Hz'%Qeq_bool_iff. congruence. }
  destruct isSales; (split_and!; [done|done|apply Hcost; done..]).
Qed.

Lemma receipt_sets_cost_witness :
  (∃ d' p' line',
     handleReceiveItems ReadsBeforeWrites Shop.po1 Shop.start = (d', Done)
     ∧ products d' !! "w" = Some p'
     ∧ Product.cost p' = 100%Q
     ∧ handleItemChange false None (products d') (addItem []) 0 (ProductIdField "w")
       = Some [line']
     ∧ Item.cost line' = 100%Q)
  ∧ (∃ d' p',
       handleReceiveItems ReadYourWrites TwoLines.po TwoLines.empty = (d', Done)
       ∧ products d' !! "w" = Some p'
       ∧ Product.cost p' = 130%Q).
Proof.
  split.
  - destruct (receipt_sets_cost ReadsBeforeWrites Shop.po1 Shop.start _
                (Shop.line 10 100) eq_refl eq_refl) as (_ & p' & Hp' & Hc & Hdraft).
    destruct (Hdraft false None (addItem []) 0%nat _ eq_refl)
      as (line' & Hchange & _ & _ & _ & Hcost & _).
    eexists _, p', line'. split; [reflexivity|].
    split_and!; [exact Hp'|exact Hc|exact Hchange|].
    apply Hcost. intros Hz. discriminate Hz.
  - destruct (receipt_sets_cost ReadYourWrites TwoLines.po TwoLines.empty _
                (Shop.line 5 130) eq_refl eq_refl) as (_ & p' & Hp' & Hc & _).
    eexists _, p'. split; [reflexivity|]. split; [exact Hp'|exact Hc].
Defined.

(** ** The inventory log reconstructs the stock *)

Lemma ledger_snoc pid logs e :
  ledger pid (logs ++ [e]) =
    ledger pid logs + if String.eqb (InvLog.productId e) pid then InvLog.change e else 0.
Proof.
  induction logs as [|x l IH]; simpl.
  - destruct (String.eqb _ _); lia.
  - fold (ledger pid (l ++ [e])). fold (ledger pid l). rewrite IH.
    destruct (String.eqb (InvLog.productId x) pid); lia.
Qed.

Lemma ledger_none pid logs :
  Forall (λ e, InvLog.productId e ≠ pid) logs → ledger pid logs = 0.
Proof.
  induction 1 as [|e l He _ IH]; [done|]. simpl. fold (ledger pid l).
  destruct (String.eqb_spec (InvLog.productId e) pid); [done|exact IH].
Qed.

Lemma running_snoc pid logs e :
  running pid logs →
  (InvLog.productId e = pid → InvLog.newStock e = ledger pid (logs ++ [e])) →
  running pid (logs ++ [e]).
Proof.
  intros Hr He k x Hk Hx.
  destruct (decide (k < length logs)%nat) as [Hlt|Hge].
  - rewrite lookup_app_l in Hk by done.
    rewrite take_app_le by lia. by apply Hr.
  - rewrite lookup_app_r in Hk by lia.
    destruct (k - length logs)%nat eqn:Hd; [|by destruct n].
    injection Hk as <-. rewrite take_ge; [by apply He|].
    rewrite length_app. simpl. lia.
Qed.

Lemma view_staged rule t :
  rule ≠ SnapshotReads → coherent t →
  (rule = ReadsBeforeWrites → dirty t = false) →
  view rule t = staged t.
Proof.
  intros Hrule Hc Hd. destruct rule; [|done..]. simpl. symmetry. auto.
Qed.

(** A new entry for the product, with the change of its stock. *)
Lemma balanced_move pid s s' p0 pid' v e :
  balanced pid s →
  products s !! pid' = Some p0 →
  products s' = <[pid' := v]> (products s) →
  inventoryLogs s' = inventoryLogs s ++ [e] →
  InvLog.productId e = pid' →
  Product.stock v = Product.stock p0 + InvLog.change e →
  InvLog.newStock e = Product.stock v →
  balanced pid s'.
Proof.
  intros (p & Hp & Hl & Hr) Hp0 Hps Hls He Hv Hn.
  unfold balanced. rewrite Hps, Hls, ledger_snoc, He.
  destruct (decide (pid' = pid)) as [->|Hne].
  - rewrite lookup_insert_eq. exists v.
    assert (p0 = p) as -> by congruence.
    rewrite String.eqb_refl. split_and!; [done|lia|].
    apply running_snoc; [done|]. intros _.
    rewrite ledger_snoc, He, String.eqb_refl. lia.
  - rewrite lookup_insert_ne by done. exists p.
    destruct (String.eqb_spec pid' pid); [done|].
    split_and!; [done|lia|]. apply running_snoc; [done|]. by rewrite He.
Qed.

Lemma receiveItem_balanced rule order item t t' pid :
  rule ≠ SnapshotReads →
  coherent t ∧ balanced pid (staged t) →
  receiveItem rule order item t = inr (tt, t') →
  coherent t' ∧ balanced pid (staged t').
Proof.
  intros Hrule [Hc Hb] (p & q & Hp & Hq & Hd & ->)%receiveItem_inv.
  split; [done|]. simpl.
  rewrite (view_staged rule t) in Hp by done.
  assert (q = p) as -> by congruence.
  destruct (received_frame order item p p (staged t)) as (_ & _ & Hps).
  destruct (received_logs order item p p (staged t)) as (Hls & _).
  eapply balanced_move; [done|exact Hq|exact Hps|exact Hls|done|..]; simpl.
  - by rewrite orZeroZ_id.
  - done.
Qed.

Lemma shipItem_balanced rule order item t u t' pid :
  rule ≠ SnapshotReads →
  coherent t ∧ balanced pid (staged t) →
  shipItem rule order item t = inr (u, t') →
  coherent t' ∧ balanced pid (staged t').
Proof.
  intros Hrule [Hc Hb] (p & q & Hp & Hq & Hd & _ & _ & ->)%shipItem_inv.
  split; [done|]. simpl.
  rewrite (view_staged rule t) in Hp by done.
  assert (q = p) as -> by congruence.
  destruct (shipped_frame order item p p (staged t)) as (_ & _ & _ & Hps).
  eapply balanced_move;
    [done|exact Hq|exact Hps|apply shipped_logs|done|..]; simpl; lia.
Qed.

Lemma movement_balanced rule pid d d' :
  rule ≠ SnapshotReads → movement rule d d' → balanced pid d → balanced pid d'.
Proof.
  intros Hrule [order d1 d2 H|order d1 d2 H] Hb.
  - rewrite handleReceiveItems_eq in H.
    destruct (purchaseOrders d1 !! Order.id order); [|done].
    destruct (String.eqb _ _); [done|].
    destruct (receiveItems _ _ _ _) as [e|[[] tf]] eqn:E; [done|].
    destruct (purchaseOrders (staged tf) !! Order.id order) as [o|]; [|done].
    injection H as <-.
    apply (receiveItems_invariant rule order
             (λ u, coherent u ∧ balanced pid (staged u))) in E as [_ Hf]; [done|..].
    + intros item u u' _. by apply receiveItem_balanced.
    + done.
  - rewrite handleShipOrder_eq in H.
    destruct (shipItems _ _ _ _) as [e|[us tf]] eqn:E; [done|].
    destruct (salesOrders (staged tf) !! Order.id order) as [o|]; [|done].
    injection H as <-.
    apply (shipItems_invariant rule order
             (λ u, coherent u ∧ balanced pid (staged u))) in E as [_ Hf]; [done|..].
    + intros item u v u' _. by apply shipItem_balanced.
    + done.
Qed.

(** A product that has just been created has stock 0, at cost 0. *)
Lemma handleAdd_fresh id productData d :
  ∃ p, products (handleAdd id productData d) !! id = Some p
       ∧ Product.stock p = 0
       ∧ Product.averageCost p = 0%Q
       ∧ Product.cost p = 0%Q.
Proof. eexists. split; [apply lookup_insert_eq|done]. Qed.

(** C5.  From a product that has just been created, with stock 0 and no
    entry in the inventory log, any number of committed receipts and
    shipments lead to a state where the product still exists, the [change]
    of its log entries adds up to its stock, and each of its entries holds in
    [newStock] the balance after that entry.  A read that follows a staged
    write is either rejected or served from the staged state. *)
Theorem ledger_reconstructs_stock rule pid p0 d0 d :
  rule ≠ SnapshotReads →
  products d0 !! pid = Some p0 →
  Product.stock p0 = 0 →
  Forall (λ e, InvLog.productId e ≠ pid) (inventoryLogs d0) →
  movements rule d0 d →
  ∃ p, products d !! pid = Some p
       ∧ ledger pid (inventoryLogs d) = Product.stock p
       ∧ running pid (inventoryLogs d).
Proof.
  intros Hrule Hp0 Hs0 Hlogs Hm. change (balanced pid d).
  induction Hm as [d|d d' d'' _ IH Hstep].
  - exists p0. split_and!; [done|by rewrite ledger_none|].
    intros k e Hk He. apply (Forall_lookup_1 _ _ _ _ Hlogs) in Hk. done.
  - eapply movement_balanced; [done..|]. by apply IH.
Qed.

Lemma ledger_reconstructs_stock_witness :
  ∃ p, products (handleReceiveItems ReadsBeforeWrites Shop.po1 Shop.start).1 !! "w" = Some p
       ∧ ledger "w" (inventoryLogs (handleReceiveItems ReadsBeforeWrites Shop.po1 Shop.start).1)
         = Product.stock p.
Proof.
  destruct (ledger_reconstructs_stock ReadsBeforeWrites "w" Shop.widget Shop.start
              (handleReceiveItems ReadsBeforeWrites Shop.po1 Shop.start).1)
    as (p & Hp & Hl & _).
  - discriminate.
  - reflexivity.
  - reflexivity.
  - constructor.
  - eapply movements_step; [apply movements_nil|].
    apply (receipt _ Shop.po1). reflexivity.
  - exists p. split; [exact Hp|exact Hl].
Defined.

(** ** The weighted average *)

Lemma totalQuantity_snoc lines i :
  totalQuantity (lines ++ [i]) = totalQuantity lines + Item.quantity i.
Proof.
  induction lines as [|x l IH]; simpl; [lia|].
  fold (totalQuantity (l ++ [i])). fold (totalQuantity l). lia.
Qed.

Lemma totalCost_snoc lines i :
  (totalCost (lines ++ [i]) ==
     totalCost lines + inject_Z (Item.quantity i) * Item.cost i)%Q.
Proof.
  induction lines as [|x l IH]; simpl; [ring|].
  fold (totalCost (l ++ [i])). fold (totalCost l). rewrite IH. ring.
Qed.

Lemma totalQuantity_nonneg lines :
  Forall (λ i, 0 < Item.quantity i) lines → 0 ≤ totalQuantity lines.
Proof.
  induction 1 as [|i l Hi _ IH]; simpl; [lia|]. fold (totalQuantity l). lia.
Qed.

Lemma totalQuantity_pos lines :
  Forall (λ i, 0 < Item.quantity i) lines → lines ≠ [] → 0 < totalQuantity lines.
Proof.
  intros H Hne. destruct lines as [|i l]; [done|].
  apply Forall_cons in H as [Hi Hl]. simpl. fold (totalQuantity l). pose proof (totalQuantity_nonneg l Hl). lia.
Qed.

(** One more line of a positive quantity keeps the stock weighted. *)
Lemma weighted_receive (s q : Z) (a c : Q) (tot : Q) :
  0 ≤ s → 0 < q →
  (inject_Z s * a == tot)%Q →
  (inject_Z (s + q) *
     (if 0 <? s + q
      then (inject_Z s * a + inject_Z q * c) / inject_Z (s + q) else c)
   == tot + inject_Z q * c)%Q.
Proof.
  intros Hs Hq Ht.
  destruct (Z.ltb_spec 0 (s + q)); [|lia].
  rewrite <- Ht. field.
  intros H0. pose proof (proj1 (inject_Z_injective (s + q) 0) H0). lia.
Qed.

Lemma linesFor_cons pid i rest :
  linesFor pid (i :: rest) =
    if decide (Item.productId i = pid) then i :: linesFor pid rest else linesFor pid rest.
Proof. unfold linesFor. by rewrite filter_cons. Qed.

Lemma receiveItems_weighted rule order pid items t t' acc :
  rule ≠ SnapshotReads →
  Forall (λ i, 0 < Item.quantity i) acc →
  Forall (λ i, 0 < Item.quantity i) (linesFor pid items) →
  coherent t → weighted pid acc (staged t) →
  receiveItems rule order items t = inr (tt, t') →
  weighted pid (acc ++ linesFor pid items) (staged t').
Proof.
  intros Hrule. revert t acc.
  induction items as [|i rest IH]; intros t acc Hacc Hpos Hc Hw.
  { intros [= <-]. by rewrite app_nil_r. }
  rewrite receiveItems_cons.
  destruct (receiveItem _ _ _ t) as [|[[] t1]] eqn:E; [done|].
  apply receiveItem_inv in E as (p & q & Hp & Hq & Hd & ->).
  rewrite (view_staged rule t) in Hp by done.
  assert (q = p) as -> by congruence.
  destruct (received_frame order i p p (staged t)) as (_ & _ & Hps).
  rewrite linesFor_cons in Hpos |- *.
  destruct (decide (Item.productId i = pid)) as [Hi|Hi].
  - apply Forall_cons in Hpos as [Hqi Hpos].
    rewrite cons_middle, (assoc_L (++)). apply IH; [|done..|].
    { apply Forall_app. by repeat constructor. }
    destruct Hw as (p' & Hp' & Hst & Havg).
    assert (p' = p) as -> by congruence.
    eexists. simpl. rewrite Hps, Hi, lookup_insert_eq. split; [done|].
    cbn [Product.stock Product.averageCost Product.receive].
    rewrite totalQuantity_snoc, totalCost_snoc, newAvgCost_eq, orZeroZ_id.
    split; [lia|].
    apply weighted_receive; [|done..].
    rewrite Hst. by apply totalQuantity_nonneg.
  - apply IH; [done..|].
    destruct Hw as (p' & Hp' & Hw). exists p'. simpl.
    by rewrite Hps, lookup_insert_ne.
Qed.

Lemma handleReceiveItems_weighted rule order pid acc d d' :
  rule ≠ SnapshotReads →
  Forall (λ i, 0 < Item.quantity i) acc →
  Forall (λ i, 0 < Item.quantity i) (linesFor pid (Order.items order)) →
  weighted pid acc d →
  handleReceiveItems rule order d = (d', Done) →
  weighted pid (acc ++ linesFor pid (Order.items order)) d'.
Proof.
  intros Hrule Hacc Hpos Hw H. rewrite handleReceiveItems_eq in H.
  destruct (purchaseOrders d !! Order.id order); [|done].
  destruct (String.eqb _ _); [done|].
  destruct (receiveItems _ _ _ _) as [e|[[] tf]] eqn:E; [done|].
  destruct (purchaseOrders (staged tf) !! Order.id order) as [o|]; [|done].
  injection H as <-.
  by apply (receiveItems_weighted rule order pid _ (mktxn d d false) tf acc).
Qed.

(** Receipts that commit are applied to a product that starts with stock 0.
    After any number of them the stock is the number of units received and
    the average cost is the money paid for them divided by that number.
    Quantities are positive, and a read that follows a staged write is
    either rejected or served from the staged state. *)
Theorem weighted_average rule pid lines p0 d0 d :
  rule ≠ SnapshotReads →
  products d0 !! pid = Some p0 →
  Product.stock p0 = 0 →
  receiving rule pid lines d0 d →
  Forall (λ i, 0 < Item.quantity i) lines →
  lines ≠ [] →
  ∃ p, products d !! pid = Some p
       ∧ Product.stock p = totalQuantity lines
       ∧ (Product.averageCost p ==
            totalCost lines / inject_Z (totalQuantity lines))%Q.
Proof.
  intros Hrule Hp0 Hs0 Hr Hpos Hne.
  assert (weighted pid lines d) as (p & Hp & Hst & Havg).
  { clear Hne. induction Hr as [d|lines order d d' d'' _ IH Hstep].
    - exists p0. split_and!; [done..|]. rewrite Hs0. simpl. ring.
    - apply Forall_app in Hpos as [Hl Ho].
      eapply handleReceiveItems_weighted; [done..| |done]. by apply IH. }
  exists p. split_and!; [done..|].
  pose proof (totalQuantity_pos lines Hpos Hne) as Hq.
  rewrite <- Havg, Hst. field.
  intros H0. pose proof (proj1 (inject_Z_injective (totalQuantity lines) 0) H0). lia.
Qed.

Lemma weighted_average_witness :
  ∃ p,
    products (handleReceiveItems ReadsBeforeWrites Shop.po2
                (handleReceiveItems ReadsBeforeWrites Shop.po1 Shop.start).1).1 !! "w"
    = Some p
    ∧ Product.stock p = 15
    ∧ (Product.averageCost p == 1650 / 15)%Q.
Proof.
  apply (weighted_average ReadsBeforeWrites "w"
           ([] ++ linesFor "w" (Order.items Shop.po1)
               ++ linesFor "w" (Order.items Shop.po2)) Shop.widget Shop.start).
  - discriminate.
  - reflexivity.
  - reflexivity.
  - rewrite (assoc_L (++)).
    apply (receiving_step _ _ _ Shop.po2 _
             (handleReceiveItems ReadsBeforeWrites Shop.po1 Shop.start).1);
      [|reflexivity].
    apply (receiving_step _ _ [] Shop.po1 _ Shop.start);
      [apply receiving_nil|reflexivity].
  - repeat constructor.
  - discriminate.
Defined.

(** ** Several receipts in one order *)

(** When the store rejects reads after writes, an order of two lines or
    more is not received: the first line is staged, the read of the second
    is rejected, and nothing is written. *)
Lemma receive_several_lines order d data i j rest p :
  purchaseOrders d !! Order.id order = Some data →
  Order.status data ≠ "Received" →
  Order.items order = i :: j :: rest →
  products d !! Item.productId i = Some p →
  handleReceiveItems ReadsBeforeWrites order d = (d, Failed ReadAfterWrite).
Proof.
  intros Hd Hs Hitems Hp. rewrite handleReceiveItems_eq, Hd.
  destruct (String.eqb_spec (Order.status data) "Received") as [|_]; [done|].
  rewrite Hitems, receiveItems_cons, receiveItem_eq, tx_get_fresh.
  cbv beta. rewrite Hp. cbn [staged snapshot]. rewrite Hp.
  by rewrite receiveItems_cons, receiveItem_eq.
Qed.

(** C6.  Ten units at 100 and five units at 130 of a product with no stock,
    as the two lines of one purchase order: the receipt fails on the read of
    its second line and leaves the product with stock 0 and average cost 0,
    where the average of the two receipts is 110.  The same two receipts in
    two orders give 15 units at 110, and so would the one order on a store
    that served the read from the staged state. *)
Theorem receipts_of_one_order :
  Order.items TwoLines.po = [Shop.line 10 100; Shop.line 5 130]
  ∧ handleReceiveItems ReadsBeforeWrites TwoLines.po TwoLines.empty
    = (TwoLines.empty, Failed ReadAfterWrite)
  ∧ (∃ p, products TwoLines.empty !! "w" = Some p
          ∧ Product.stock p = 0 ∧ (Product.averageCost p == 0)%Q)
  ∧ (∃ d1 d2 p,
       handleReceiveItems ReadsBeforeWrites Shop.po1 Shop.start = (d1, Done)
       ∧ handleReceiveItems ReadsBeforeWrites Shop.po2 d1 = (d2, Done)
       ∧ products d2 !! "w" = Some p
       ∧ Product.stock p = 15 ∧ (Product.averageCost p == 110)%Q)
  ∧ (∃ d' p',
       handleReceiveItems ReadYourWrites TwoLines.po TwoLines.empty = (d', Done)
       ∧ products d' !! "w" = Some p'
       ∧ Product.stock p' = 15 ∧ (Product.averageCost p' == 110)%Q).
Proof.
  split_and!.
  - reflexivity.
  - by apply (receive_several_lines TwoLines.po TwoLines.empty TwoLines.po
                (Shop.line 10 100) (Shop.line 5 130) [] Shop.widget).
  - eexists. split_and!; reflexivity.
  - eexists _, _, _. split_and!; try (vm_compute; reflexivity).
  - eexists _, _. split_and!; try (vm_compute; reflexivity).
Qed.

(** ** A shipment that runs short *)

(** What can go wrong in one turn of the shipment loop. *)
Lemma shipItem_error rule order item t e :
  same_ids t → shipItem rule order item t = inl e →
  (e = ReadAfterWrite ∧ rule = ReadsBeforeWrites)
  ∨ e = InsufficientStock (Item.name item).
Proof.
  intros Hids. rewrite shipItem_eq.
  destruct (tx_get _ _ t) as [e'|[[p|] t0]] eqn:G.
  - intros [= <-]. left. by apply tx_get_error in G.
  - apply tx_get_inv in G as (-> & Hp & _).
    destruct (_ <? _); [intros [= <-]; by right|].
    destruct (products (staged t) !! Item.productId item) eqn:Hq; [done|].
    apply (view_same_ids rule) in Hq; [congruence|done].
  - intros [= <-]. by right.
Qed.

(** What can go wrong in the shipment loop: a read after a write, or a line
    that is refused. *)
Lemma shipItems_error rule order items t e :
  same_ids t → shipItems rule order items t = inl e →
  (e = ReadAfterWrite ∧ rule = ReadsBeforeWrites)
  ∨ ∃ item, item ∈ items ∧ e = InsufficientStock (Item.name item).
Proof.
  revert t. induction items as [|item rest IH]; intros t Hids; [done|].
  rewrite shipItems_cons.
  destruct (shipItem _ _ _ t) as [e'|[u t1]] eqn:E.
  - intros [= ->].
    destruct (shipItem_error _ _ _ _ _ Hids E) as [?| ->]; [by left|].
    right. exists item. split; [by left|done].
  - destruct (shipItems _ _ rest t1) as [e'|[us t2]] eqn:E'; [|done].
    intros [= ->].
    destruct (IH t1 (shipItem_same_ids _ _ _ _ _ _ Hids E) E')
      as [?|(i & Hi & ->)]; [by left|].
    right. exists i. split; [by right|done].
Qed.

Lemma shipItems_enough rule order items t us t' :
  (∀ i, i ∈ items → 0 ≤ Item.quantity i) →
  no_more (staged t) (snapshot t) →
  shipItems rule order items t = inr (us, t') →
  ∀ item p0, item ∈ items →
    products (snapshot t) !! Item.productId item = Some p0 →
    Item.quantity item ≤ Product.stock p0.
Proof.
  revert t us. induction items as [|i rest IH]; intros t us Hq Hno H item p0 Hin Hp0.
  { by apply elem_of_nil in Hin. }
  rewrite shipItems_cons in H.
  destruct (shipItem _ _ _ t) as [|[u t1]] eqn:E; [done|].
  destruct (shipItems _ _ rest t1) as [|[us' t2]] eqn:E'; [done|].
  injection H as <- <-.
  apply shipItem_inv in E as (p & q & Hp & Hqs & _ & Hle & _ & ->).
  assert (∀ r, products (snapshot t) !! Item.productId i = Some r →
               Product.stock p ≤ Product.stock r) as Hread.
  { intros r Hr. destruct rule; simpl in Hp; try (assert (r = p) as -> by congruence; lia).
    by apply (Hno (Item.productId i)). }
  apply elem_of_cons in Hin as [->|Hin].
  - specialize (Hread _ Hp0). lia.
  - refine (IH _ _ _ _ E' item p0 Hin Hp0); [intros j Hj; apply Hq; by right|].
    intros pid p' r. simpl.
    destruct (decide (Item.productId i = pid)) as [<-|Hne].
    + rewrite lookup_insert_eq. intros [= <-] Hr. simpl.
      specialize (Hread _ Hr). specialize (Hq i ltac:(by left)). lia.
    + rewrite lookup_insert_ne by done. apply Hno.
Qed.

Lemma no_more_refl d : no_more d d.
Proof. intros pid p' p0 H1 H2. assert (p' = p0) as -> by congruence. lia. Qed.

Lemma same_ids_refl d : same_ids (mktxn d d false).
Proof. by intros pid. Qed.

(** A line that asks for more than the stock makes the shipment fail, and
    nothing is changed.  The failure is the refusal of a line, unless the
    store rejects the read of that line first. *)
Lemma ship_short_fails rule order d item p :
  item ∈ Order.items order →
  products d !! Item.productId item = Some p →
  Product.stock p < Item.quantity item →
  (∀ i, i ∈ Order.items order → 0 ≤ Item.quantity i) →
  ∃ e, handleShipOrder rule order d = (d, Failed e)
       ∧ ((e = ReadAfterWrite ∧ rule = ReadsBeforeWrites)
          ∨ ∃ i, i ∈ Order.items order ∧ e = InsufficientStock (Item.name i)).
Proof.
  intros Hin Hp Hshort Hq. rewrite handleShipOrder_eq.
  destruct (shipItems _ _ _ _) as [e|[us tf]] eqn:E.
  - exists e. split; [done|]. by apply shipItems_error in E; [|apply same_ids_refl].
  - pose proof (shipItems_enough rule order _ (mktxn d d false) _ _ Hq
                  (no_more_refl d) E item p Hin Hp). lia.
Qed.

(** When the short line is the first of the order, the failure is its
    refusal. *)
Lemma ship_short_first rule order d item rest p :
  Order.items order = item :: rest →
  products d !! Item.productId item = Some p →
  Product.stock p < Item.quantity item →
  handleShipOrder rule order d = (d, Failed (InsufficientStock (Item.name item))).
Proof.
  intros Hi Hp Hshort.
  rewrite handleShipOrder_eq, Hi, shipItems_cons, shipItem_eq, tx_get_fresh, Hp.
  by destruct (Z.ltb_spec (Product.stock p) (Item.quantity item)); [|lia].
Qed.

(** C2 does not hold for a line after the first.  The second line of the
    order asks for 100 units of a product with 5 in stock.  Nothing is changed, but the failure
    is not InsufficientStock: the read of the second line follows the write
    staged for the first and is rejected.  A store that served this read
    would report InsufficientStock. *)
Theorem ship_short_second_line :
  handleShipOrder ReadsBeforeWrites TwoLines.so TwoLines.start
    = (TwoLines.start, Failed ReadAfterWrite)
  ∧ handleShipOrder SnapshotReads TwoLines.so TwoLines.start
    = (TwoLines.start, Failed (InsufficientStock "Acme Gadget L"))
  ∧ handleShipOrder ReadYourWrites TwoLines.so TwoLines.start
    = (TwoLines.start, Failed (InsufficientStock "Acme Gadget L")).
Proof. split_and!; reflexivity. Qed.

(** An order of two lines is not received: the read of its second line is
    rejected.  A store that served that read from the snapshot would keep
    only the last line of a product. *)
Lemma receive_two_lines :
  handleReceiveItems ReadsBeforeWrites TwoLines.po TwoLines.empty
    = (TwoLines.empty, Failed ReadAfterWrite)
  ∧ ∃ d' p', handleReceiveItems SnapshotReads TwoLines.po TwoLines.empty = (d', Done)
             ∧ products d' !! "w" = Some p'
             ∧ Product.stock p' = 5 ∧ (Product.averageCost p' == 130)%Q
             ∧ ledger "w" (inventoryLogs d') = 15.
Proof.
  split; [reflexivity|].
  eexists _, _. split_and!; try (vm_compute; reflexivity).
Qed.

(** * More of the application *)

(** ** Views *)

Lemma adminOnly_inv role p : adminOnly role p ≠ AccessDenied → p ≠ AccessDenied → role = "admin".
Proof.
  unfold adminOnly. destruct (String.eqb_spec role "admin"); [done|]. by intros [].
Qed.

(** X1.  The pages of products, customers, suppliers, inventory, sales,
    purchases and reports are rendered for the role admin only, whatever
    view is asked for: every other role gets the dashboard, the shipping
    page, the refusal or the waiting text. *)
Theorem admin_pages_for_admin loading user role currentView :
  role ≠ "admin" →
  renderView loading user role currentView ∈
    [Verifying; Dashboard; WarehouseShippingManagement; AccessDenied].
Proof.
  intros Hrole. unfold renderView, adminOnly.
  destruct (String.eqb_spec role "admin"); [done|].
  repeat (case_match; [set_solver|]). set_solver.
Qed.

Lemma admin_pages_for_admin_witness :
  renderView false true "warehouse" "reports" ∈
    [Verifying; Dashboard; WarehouseShippingManagement; AccessDenied].
Proof. apply admin_pages_for_admin. discriminate. Defined.

Lemma flatViews_admin :
  map itemId (flatViews (getAvailableViews "admin")) =
    ["dashboard"; "products"; "customers"; "suppliers"; "inventory"; "sales";
     "shipping"; "purchases"; "reports"].
Proof. reflexivity. Qed.

Lemma flatViews_warehouse :
  map itemId (flatViews (getAvailableViews "warehouse")) = ["dashboard"; "shipping"].
Proof. reflexivity. Qed.

Lemma flatViews_other role :
  role ≠ "admin" → role ≠ "warehouse" → getAvailableViews role = [].
Proof.
  intros H1 H2. unfold getAvailableViews.
  destruct (String.eqb_spec role "admin"); [done|].
  by destruct (String.eqb_spec role "warehouse").
Qed.

Lemma existsb_itemId (l : list navItem) v :
  existsb (λ i, String.eqb (itemId i) v) l = true ↔ v ∈ map itemId l.
Proof.
  rewrite existsb_exists, list_elem_of_In, in_map_iff. split.
  - intros (i & Hi & E). exists i. by apply String.eqb_eq in E.
  - intros (i & <- & Hi). exists i. by rewrite String.eqb_refl.
Qed.

(** The views a role is offered. *)
Lemma offered role v :
  v ∈ map itemId (flatViews (getAvailableViews role)) ↔
    (role = "admin" ∧
       v ∈ ["dashboard"; "products"; "customers"; "suppliers"; "inventory"; "sales";
            "shipping"; "purchases"; "reports"])
    ∨ (role = "warehouse" ∧ v ∈ ["dashboard"; "shipping"]).
Proof.
  destruct (decide (role = "admin")) as [->|Ha].
  { rewrite flatViews_admin. split; [by left|]. by intros [[_ ?]|[[=] _]]. }
  destruct (decide (role = "warehouse")) as [->|Hw].
  { rewrite flatViews_warehouse. split; [by right|]. by intros [[[=] _]|[_ ?]]. }
  rewrite flatViews_other by done. simpl. split; [by intros ?%elem_of_nil|].
  by intros [[? _]|[? _]].
Qed.

(** X2.  A view the role is offered in the side bar renders its own page,
    never the refusal; a view it is not offered is replaced by the
    dashboard.  So, once the view has settled, no role is shown the refusal,
    and a role other than admin and warehouse is shown the dashboard
    only. *)
Theorem settled_view_is_granted role currentView :
  (currentView ∈ map itemId (flatViews (getAvailableViews role)) →
     settleView role currentView = currentView)
  ∧ (currentView ∉ map itemId (flatViews (getAvailableViews role)) →
     settleView role currentView = "dashboard")
  ∧ renderView false true role (settleView role currentView) ≠ AccessDenied
  ∧ (role ≠ "admin" → role ≠ "warehouse" →
     renderView false true role (settleView role currentView) = Dashboard).
Proof.
  assert (settleView role currentView =
            if decide (currentView ∈ map itemId (flatViews (getAvailableViews role)))
            then currentView else "dashboard") as Hs.
  { unfold settleView. destruct (existsb _ _) eqn:E.
    - apply existsb_itemId in E. by rewrite decide_True.
    - rewrite decide_False; [done|]. intros H%existsb_itemId. congruence. }
  split_and!.
  - intros H. by rewrite Hs, decide_True.
  - intros H. by rewrite Hs, decide_False.
  - rewrite Hs. case_decide as H; [|done].
    apply offered in H as [[-> H]|[-> H]].
    + repeat (apply elem_of_cons in H as [->|H]; [done|]). by apply elem_of_nil in H.
    + repeat (apply elem_of_cons in H as [->|H]; [done|]). by apply elem_of_nil in H.
  - intros Ha Hw. rewrite Hs, flatViews_other by done. by rewrite decide_False by set_solver.
Qed.

Lemma settled_view_is_granted_witness :
  settleView "warehouse" "shipping" = "shipping"
  ∧ settleView "warehouse" "reports" = "dashboard"
  ∧ renderView false true "guest" (settleView "guest" "shipping") = Dashboard.
Proof.
  destruct (settled_view_is_granted "warehouse" "shipping") as (H1 & _).
  destruct (settled_view_is_granted "warehouse" "reports") as (_ & H2 & _).
  destruct (settled_view_is_granted "guest" "shipping") as (_ & _ & _ & H3).
  split_and!.
  - apply H1. apply (bool_decide_unpack _). reflexivity.
  - apply H2. apply (bool_decide_unpack _). reflexivity.
  - apply H3; discriminate.
Defined.

(** ** The lines of the order form *)

Lemma filterIndex_past {A} (index k : nat) (l : list A) :
  (index < k)%nat → filterIndex (λ j, negb (Nat.eqb j index)) k l = l.
Proof.
  revert k. induction l as [|x rest IH]; intros k Hk; [done|].
  cbn [filterIndex]. destruct (Nat.eqb_spec k index); [lia|].
  cbn [negb]. f_equal. apply IH. lia.
Qed.

Lemma filterIndex_delete {A} (index i : nat) (l : list A) :
  filterIndex (λ j, negb (Nat.eqb j (i + index))) i l = delete index l.
Proof.
  revert index i. induction l as [|x rest IH]; intros index i; [by destruct index|].
  cbn [filterIndex]. destruct index as [|index].
  - rewrite Nat.add_0_r, Nat.eqb_refl. cbn [negb]. simpl.
    apply filterIndex_past. lia.
  - destruct (Nat.eqb_spec i (i + S index)); [lia|]. cbn [negb]. simpl. f_equal.
    replace (i + S index)%nat with (S i + index)%nat by lia. apply IH.
Qed.

(** X3.  Removing the line at [index] deletes that line and no other: the
    lines before it stay where they are and the lines after it move up by
    one.  An [index] past the last line removes nothing. *)
Theorem removeItem_deletes index items :
  removeItem index items = delete index items
  ∧ (∀ i, (i < index)%nat → removeItem index items !! i = items !! i)
  ∧ (∀ i, (index ≤ i)%nat → removeItem index items !! i = items !! S i)
  ∧ ((length items ≤ index)%nat → removeItem index items = items).
Proof.
  assert (removeItem index items = delete index items) as ->
    by apply (filterIndex_delete index 0 items).
  split_and!; [done|..].
  - intros i Hi. by apply list_lookup_delete_lt.
  - intros i Hi. by apply list_lookup_delete_ge.
  - intros H. rewrite delete_take_drop, take_ge, drop_ge by lia. apply app_nil_r.
Qed.

Lemma removeItem_deletes_witness :
  removeItem 5 (addItem (addItem [])) = addItem (addItem []).
Proof.
  apply (removeItem_deletes 5 (addItem (addItem []))). simpl. lia.
Defined.

(** X4.  A change to one line of the draft keeps the number of lines and
    every other line; a change of the quantity keeps the product, the name,
    the price and the cost of the line; a line that does not exist makes the
    handler fail; and choosing a product the form does not list changes the
    product id of the line only. *)
Theorem handleItemChange_one_line isSales selectedTier productList items index c :
  match handleItemChange isSales selectedTier productList items index c with
  | None => (length items ≤ index)%nat
  | Some items' =>
      length items' = length items
      ∧ (∀ i, i ≠ index → items' !! i = items !! i)
      ∧ ∃ line line',
          items !! index = Some line ∧ items' !! index = Some line'
          ∧ match c with
            | QuantityField value => line' = Item.set_quantity value line
            | ProductIdField value =>
                Item.productId line' = value
                ∧ Item.quantity line' = Item.quantity line
                ∧ Item.costAtSale line' = Item.costAtSale line
                ∧ (productList !! value = None → line' = Item.set_productId value line)
            end
  end.
Proof.
  unfold handleItemChange. destruct (items !! index) as [line|] eqn:Hl.
  - pose proof (lookup_lt_Some _ _ _ Hl) as Hlt.
    split_and!; [by rewrite length_insert| |].
    + intros i Hi. by rewrite list_lookup_insert_ne.
    + eexists line, _. split; [done|]. split; [by apply list_lookup_insert_eq|].
      destruct c as [value|value]; [|done].
      unfold pickProduct. destruct (productList !! value) as [product|]; [|done].
      by destruct isSales.
  - by apply lookup_ge_None.
Qed.

Lemma filter_none {A} (P : A → Prop) `{∀ x, Decision (P x)} (l : list A) :
  (∀ x, x ∈ l → ¬ P x) → filter P l = [].
Proof.
  induction l as [|x l IH]; intros Hl; [done|].
  rewrite filter_cons_False by (apply Hl; by left).
  apply IH. intros y Hy. apply Hl. by right.
Qed.

Lemma handleSubmit_eq partyName items :
  handleSubmit partyName items =
    let finalItems :=
      filter (λ item, Item.productId item ≠ EmptyString ∧ 0 < Item.quantity item) items in
    if decide (partyName = EmptyString ∨ finalItems = []) then None
    else Some (partyName, finalItems).
Proof.
  unfold handleSubmit. cbv zeta.
  destruct (String.eqb_spec partyName EmptyString) as [->|Hp].
  - by rewrite decide_True by by left.
  - destruct (filter _ items) as [|i l]; [by rewrite decide_True by by right|].
    rewrite decide_False; [done|]. by intros [?|?].
Qed.

(** X5.  The form saves an order exactly when a party is chosen and some
    line has a product and a positive quantity.  The saved lines are those
    lines, in the order of the draft; a line added and left blank is never
    saved; and saving what was saved changes nothing. *)
Theorem handleSubmit_saves_valid_lines partyName items :
  (handleSubmit partyName items = None ↔
     partyName = EmptyString
     ∨ ∀ item, item ∈ items → Item.productId item = EmptyString ∨ Item.quantity item ≤ 0)
  ∧ (∀ saved, handleSubmit partyName items = Some saved →
       saved.1 = partyName
       ∧ saved.2 `sublist_of` items
       ∧ (∀ item, item ∈ saved.2 ↔
            item ∈ items ∧ Item.productId item ≠ EmptyString ∧ 0 < Item.quantity item)
       ∧ handleSubmit partyName saved.2 = Some saved)
  ∧ handleSubmit partyName (addItem items) = handleSubmit partyName items.
Proof.
  rewrite !handleSubmit_eq. cbv zeta.
  set (valid := λ item : Item.t, Item.productId item ≠ EmptyString ∧ 0 < Item.quantity item).
  split_and!.
  - case_decide as H; split; try done.
    + intros _. destruct H as [?|H]; [by left|right].
      intros item Hin.
      destruct (decide (valid item)) as [Hv|Hv].
      * assert (item ∈ filter valid items) as Hf by by apply list_elem_of_filter.
        rewrite H in Hf. by apply elem_of_nil in Hf.
      * unfold valid in Hv.
        destruct (decide (Item.productId item = EmptyString)); [by left|right].
        apply Z.nlt_ge. intros Hq. by apply Hv.
    + intros [Hp|Hall]; exfalso; apply H; [by left|right].
      apply filter_none. intros item Hin [Hv1 Hv2].
      destruct (Hall item Hin); [done|lia].
  - intros saved. case_decide as H; [done|]. intros [= <-]. simpl.
    split_and!; [done|apply sublist_filter| |].
    + intros item. rewrite list_elem_of_filter. unfold valid. tauto.
    + rewrite handleSubmit_eq. cbv zeta. fold valid.
      rewrite list_filter_filter.
      assert (filter (λ x, valid x ∧ valid x) items = filter valid items) as ->.
      { apply list_filter_iff. tauto. }
      by rewrite decide_False.
  - unfold addItem. rewrite filter_app.
    assert (filter valid [Item.mk EmptyString 1 EmptyString 0 0 None] = []) as ->.
    { rewrite filter_cons_False; [done|]. by intros [H _]. }
    by rewrite app_nil_r.
Qed.

Lemma handleSubmit_saves_valid_lines_witness :
  handleSubmit "Ada" (addItem [Shop.line 2 50])
  = Some ("Ada", [Shop.line 2 50]).
Proof.
  rewrite (proj2 (proj2 (handleSubmit_saves_valid_lines "Ada" [Shop.line 2 50]))).
  reflexivity.
Defined.

(** ** Orders through their states *)








(** X7.  A sales order of one line is saved, approved and shipped.  It is
    stored as Pending Approval, then Pending Shipment, then Completed, with
    the same line; the approve button is rendered for the first state only
    and the ship button for the second only.  After the shipment the stock
    of the product is its stock before less the quantity of the line, its
    average cost and cost are what they were, and the stored line is the
    line of the order with costAtSale set to the average cost of the
    product. *)
Theorem sales_order_lifecycle rule id orderNumber partyName item p d :
  products d !! Item.productId item = Some p →
  Item.quantity item ≤ Product.stock p →
  let d1 := Sales.handleAddOrder id orderNumber (partyName, [item]) d in
  ∃ o1 d2 o2 d3 o3 u p3,
    salesOrders d1 !! id = Some o1
    ∧ Order.status o1 = "Pending Approval"
    ∧ Order.items o1 = [item]
    ∧ approveButton "sales" (shown id o1) = true ∧ shipButton (shown id o1) = false
    ∧ Sales.handleApproveOrder true id d1 = (d2, Done)
    ∧ salesOrders d2 !! id = Some o2
    ∧ Order.status o2 = "Pending Shipment"
    ∧ Order.items o2 = [item]
    ∧ approveButton "sales" (shown id o2) = false ∧ shipButton (shown id o2) = true
    ∧ handleShipOrder rule (shown id o2) d2 = (d3, Done)
    ∧ salesOrders d3 !! id = Some o3
    ∧ Order.status o3 = "Completed"
    ∧ approveButton "sales" (shown id o3) = false ∧ shipButton (shown id o3) = false
    ∧ Order.items o3 = [u]
    ∧ Item.productId u = Item.productId item
    ∧ Item.quantity u = Item.quantity item
    ∧ Item.name u = Item.name item
    ∧ Item.price u = Item.price item
    ∧ Item.cost u = Item.cost item
    ∧ (∃ c, Item.costAtSale u = Some c ∧ (c == Product.averageCost p)%Q)
    ∧ products d3 !! Item.productId item = Some p3
    ∧ Product.stock p3 = Product.stock p - Item.quantity item
    ∧ Product.averageCost p3 = Product.averageCost p
    ∧ Product.cost p3 = Product.cost p
    ∧ Product.brand p3 = Product.brand p
    ∧ Product.name p3 = Product.name p
    ∧ Product.spec p3 = Product.spec p.
Proof.
  intros Hp Hq d1.
  set (o1 := Order.mk id orderNumber "Pending Approval" [item]).
  set (o2 := Order.set_status "Pending Shipment" o1).
  set (d2 := with_salesOrders <[id := o2]> d1).
  assert (salesOrders d1 !! id = Some o1) as H1 by apply lookup_insert_eq.
  assert (salesOrders d2 !! id = Some o2) as H2 by apply lookup_insert_eq.
  assert (products d2 !! Item.productId item = Some p) as Hp2 by done.
  pose proof (ship_single rule (shown id o2) item o2 p d2 eq_refl Hp2 Hq H2) as H3.
  exists o1, d2, o2,
    (with_salesOrders
       <[id := Order.complete [Item.stamp (orZero (Product.averageCost p)) item] o2]>
       (shipped (shown id o2) item p p d2)),
    (Order.complete [Item.stamp (orZero (Product.averageCost p)) item] o2),
    (Item.stamp (orZero (Product.averageCost p)) item),
    (Product.set_stock (Product.stock p - Item.quantity item) p).
  split_and!; try done; try exact H3; try (simpl; apply lookup_insert_eq).
  - unfold Sales.handleApproveOrder. by rewrite H1.
  - eexists. split; [done|]. apply orZero_eq.
Qed.

Lemma sales_order_lifecycle_witness :
  ∃ d3 o3 u p3,
    handleShipOrder ReadsBeforeWrites
      (shown "so9" (Order.mk "so9" "SO-9" "Pending Shipment" [Shop.line 2 0]))
      (Sales.handleApproveOrder true "so9"
         (Sales.handleAddOrder "so9" "SO-9" ("Ada", [Shop.line 2 0]) Stocked.start)).1
    = (d3, Done)
    ∧ salesOrders d3 !! "so9" = Some o3
    ∧ Order.status o3 = "Completed"
    ∧ Order.items o3 = [u]
    ∧ Item.quantity u = 2
    ∧ (∃ c, Item.costAtSale u = Some c ∧ (c == 110)%Q)
    ∧ products d3 !! "w" = Some p3
    ∧ Product.stock p3 = 3
    ∧ Product.averageCost p3 = 110%Q.
Proof.
  destruct (sales_order_lifecycle ReadsBeforeWrites "so9" "SO-9" "Ada" (Shop.line 2 0)
              Stocked.widget Stocked.start eq_refl ltac:(simpl; lia))
    as (o1 & d2 & o2 & d3 & o3 & u & p3 & _ & _ & _ & _ & _ & Ha & Ho2 & _ & _ & _ & _
        & Hs & Ho3 & Hc & _ & _ & Hi & _ & Hqu & _ & _ & _ & Hcs & Hp3 & Hst & Hav & _).
  exists d3, o3, u, p3. injection Ha as <-. injection Ho2 as <-.
  split_and!;
    [exact Hs|exact Ho3|exact Hc|exact Hi|exact Hqu|exact Hcs|exact Hp3|exact Hst
    |exact Hav].
Defined.

(** ** The value of the inventory *)

Lemma Qsum_fold {A} (f : A → Q) (l : list A) (a : Q) :
  (fold_left (λ sum x, sum + f x) l a == a + fold_left (λ sum x, sum + f x) l 0)%Q.
Proof.
  revert a. induction l as [|x l IH]; intros a; simpl; [ring|].
  rewrite (IH (a + f x)%Q), (IH (0 + f x)%Q). ring.
Qed.

Lemma Qsum_cons {A} (f : A → Q) (x : A) (l : list A) :
  (fold_left (λ sum x, sum + f x) (x :: l) 0 ==
     f x + fold_left (λ sum x, sum + f x) l 0)%Q.
Proof. simpl. rewrite Qsum_fold. ring. Qed.

Lemma Qsum_app {A} (f : A → Q) (l k : list A) :
  (fold_left (λ sum x, sum + f x) (l ++ k) 0 ==
     fold_left (λ sum x, sum + f x) l 0 + fold_left (λ sum x, sum + f x) k 0)%Q.
Proof. rewrite fold_left_app. apply Qsum_fold. Qed.

Lemma Qsum_perm {A} (f : A → Q) (l k : list A) :
  l ≡ₚ k →
  (fold_left (λ sum x, sum + f x) l 0 == fold_left (λ sum x, sum + f x) k 0)%Q.
Proof.
  induction 1 as [|x l k _ IH|x y l|l k m _ IH1 _ IH2].
  - reflexivity.
  - by rewrite !Qsum_cons, IH.
  - rewrite !Qsum_cons. ring.
  - by rewrite IH1.
Qed.

(** The total does not depend on the order in which the products are
    listed. *)
Lemma totalInventoryCost_perm l k :
  l ≡ₚ k → (totalInventoryCost l == totalInventoryCost k)%Q.
Proof.
  apply (Qsum_perm
           (λ p, inject_Z (orZeroZ (Product.stock p)) * orZero (Product.averageCost p))%Q).
Qed.

Lemma totalInventoryCost_one p :
  (totalInventoryCost [p] ==
     inject_Z (Product.stock p) * Product.averageCost p)%Q.
Proof.
  unfold totalInventoryCost. simpl. rewrite orZeroZ_id, orZero_eq. ring.
Qed.

Lemma totalInventoryCost_cons p l :
  (totalInventoryCost (p :: l) == totalInventoryCost [p] + totalInventoryCost l)%Q.
Proof.
  unfold totalInventoryCost. rewrite Qsum_cons. simpl. ring.
Qed.

(** Replacing one product changes the total by the difference of its
    value. *)
Lemma totalInventoryCost_insert (m : gmap string Product.t) k p p' :
  m !! k = Some p →
  (totalInventoryCost (map_to_list (<[k := p']> m)).*2 + totalInventoryCost [p] ==
     totalInventoryCost (map_to_list m).*2 + totalInventoryCost [p'])%Q.
Proof.
  intros Hk.
  assert ((map_to_list (<[k := p']> m)).*2 ≡ₚ p' :: (map_to_list (delete k m)).*2) as H'.
  { rewrite <- insert_delete_eq.
    by rewrite map_to_list_insert by apply lookup_delete_eq. }
  assert ((map_to_list m).*2 ≡ₚ p :: (map_to_list (delete k m)).*2) as H.
  { rewrite <- (insert_delete_id m k p) at 1 by done.
    by rewrite map_to_list_insert by apply lookup_delete_eq. }
  rewrite (totalInventoryCost_perm _ _ H), (totalInventoryCost_perm _ _ H').
  rewrite (totalInventoryCost_cons p' (map_to_list (delete k m)).*2),
    (totalInventoryCost_cons p (map_to_list (delete k m)).*2). ring.
Qed.

Lemma purchases_totalAmount_cons item rest :
  (Purchases.totalAmount (item :: rest) ==
     Item.cost item * inject_Z (Item.quantity item) + Purchases.totalAmount rest)%Q.
Proof.
  apply (Qsum_cons (λ i, Item.cost i * inject_Z (Item.quantity i))%Q).
Qed.

Lemma orderCogs_cons item rest :
  (orderCogs (item :: rest) ==
     costAtSaleOrZero item * inject_Z (Item.quantity item) + orderCogs rest)%Q.
Proof.
  apply (Qsum_cons (λ i, costAtSaleOrZero i * inject_Z (Item.quantity i))%Q).
Qed.

Lemma receiveItems_value rule order items t t' :
  rule ≠ SnapshotReads → coherent t →
  (∀ pid p, products (staged t) !! pid = Some p → 0 ≤ Product.stock p) →
  (∀ item, item ∈ items → 0 < Item.quantity item) →
  receiveItems rule order items t = inr (tt, t') →
  (totalInventoryCost (productDocs (staged t')) ==
     totalInventoryCost (productDocs (staged t)) + Purchases.totalAmount items)%Q.
Proof.
  intros Hrule. revert t. induction items as [|i rest IH]; intros t Hc Hstock Hq.
  { intros [= <-]. unfold Purchases.totalAmount. simpl. ring. }
  rewrite receiveItems_cons.
  destruct (receiveItem _ _ _ t) as [|[[] t1]] eqn:E; [done|].
  apply receiveItem_inv in E as (p & q & Hp & Hs & Hd & ->).
  rewrite (view_staged rule t) in Hp by done.
  assert (q = p) as -> by congruence.
  destruct (received_frame order i p p (staged t)) as (_ & _ & Hps).
  set (p' := Product.receive _ _ _ p) in Hps.
  intros Hrest. apply IH in Hrest; [|done|..].
  - rewrite Hrest, purchases_totalAmount_cons. unfold productDocs. cbn [staged].
    rewrite Hps.
    pose proof (totalInventoryCost_insert (products (staged t)) _ p p' Hs) as Hi.
    assert (totalInventoryCost [p'] ==
              totalInventoryCost [p]
              + Item.cost i * inject_Z (Item.quantity i))%Q as Hv.
    { rewrite !totalInventoryCost_one. unfold p'.
      cbn [Product.stock Product.averageCost Product.receive].
      rewrite newAvgCost_eq, orZeroZ_id.
      rewrite (weighted_receive (Product.stock p) (Item.quantity i)
                 (Product.averageCost p) (Item.cost i)
                 (inject_Z (Product.stock p) * Product.averageCost p)).
      - ring.
      - by apply (Hstock (Item.productId i)).
      - apply Hq. by left.
      - reflexivity. }
    rewrite Hv in Hi.
    assert (totalInventoryCost (map_to_list (<[Item.productId i := p']>
                                               (products (staged t)))).*2 ==
              totalInventoryCost (map_to_list (products (staged t))).*2
              + Item.cost i * inject_Z (Item.quantity i))%Q as ->.
    { apply (Qplus_inj_r _ _ (totalInventoryCost [p])). rewrite Hi. ring. }
    ring.
  - intros pid r. cbn [staged]. rewrite Hps.
    destruct (decide (Item.productId i = pid)) as [<-|Hne].
    + rewrite lookup_insert_eq. intros [= <-]. unfold p'. simpl. rewrite orZeroZ_id.
      pose proof (Hstock _ _ Hs). pose proof (Hq i ltac:(by left)). lia.
    + rewrite lookup_insert_ne by done. apply Hstock.
  - intros item Hin. apply Hq. by right.
Qed.

(** X9.  Receiving a purchase order adds to the value of the inventory, the
    sum of stock times average cost that the dashboard shows, exactly the
    amount of the order, the sum of cost times quantity with which it was
    saved.  Stocks are not negative and quantities are positive; a read that
    follows a staged write is rejected or served from the staged state. *)
Theorem receipt_adds_its_amount rule order d d' :
  rule ≠ SnapshotReads →
  (∀ pid p, products d !! pid = Some p → 0 ≤ Product.stock p) →
  (∀ item, item ∈ Order.items order → 0 < Item.quantity item) →
  handleReceiveItems rule order d = (d', Done) →
  (totalInventoryCost (productDocs d') ==
     totalInventoryCost (productDocs d) + Purchases.totalAmount (Order.items order))%Q.
Proof.
  intros Hrule Hstock Hq H. rewrite handleReceiveItems_eq in H.
  destruct (purchaseOrders d !! Order.id order); [|done].
  destruct (String.eqb _ _); [done|].
  destruct (receiveItems _ _ _ _) as [e|[[] tf]] eqn:E; [done|].
  destruct (purchaseOrders (staged tf) !! Order.id order) as [o|]; [|done].
  injection H as <-.
  by apply (receiveItems_value rule order _ (mktxn d d false) tf).
Qed.

Lemma receipt_adds_its_amount_witness :
  (totalInventoryCost
     (productDocs (handleReceiveItems ReadsBeforeWrites Shop.po1 Shop.start).1) ==
   totalInventoryCost (productDocs Shop.start) + 1000)%Q.
Proof.
  apply (receipt_adds_its_amount ReadsBeforeWrites Shop.po1 Shop.start).
  - discriminate.
  - intros pid p H. change (products Shop.start) with ({["w" := Shop.widget]} : gmap string Product.t) in H.
    apply lookup_singleton_Some in H as [_ <-]. simpl. lia.
  - intros item H. apply list_elem_of_singleton in H as ->. simpl. lia.
  - reflexivity.
Defined.

Lemma shipItems_value rule order items t us t' :
  rule ≠ SnapshotReads → coherent t →
  shipItems rule order items t = inr (us, t') →
  (totalInventoryCost (productDocs (staged t)) ==
     totalInventoryCost (productDocs (staged t')) + orderCogs us)%Q.
Proof.
  intros Hrule. revert t us. induction items as [|i rest IH]; intros t us Hc.
  { intros [= <- <-]. unfold orderCogs. simpl. ring. }
  rewrite shipItems_cons.
  destruct (shipItem _ _ _ t) as [|[u t1]] eqn:E; [done|].
  destruct (shipItems _ _ rest t1) as [|[us' t2]] eqn:E'; [done|].
  intros [= <- <-].
  apply shipItem_inv in E as (p & q & Hp & Hs & Hd & _ & -> & ->).
  rewrite (view_staged rule t) in Hp by done.
  assert (q = p) as -> by congruence.
  apply IH in E'; [|done]. rewrite orderCogs_cons.
  unfold productDocs in *. cbn [staged shipped with_products add_inventoryLog products] in *.
  set (p' := Product.set_stock _ p) in *.
  pose proof (totalInventoryCost_insert (products (staged t)) _ p p' Hs) as Hi.
  assert (totalInventoryCost [p] ==
            totalInventoryCost [p']
            + costAtSaleOrZero (Item.stamp (orZero (Product.averageCost p)) i)
              * inject_Z (Item.quantity i))%Q as Hv.
  { rewrite !totalInventoryCost_one. unfold p', costAtSaleOrZero.
    cbn [Product.stock Product.averageCost Product.set_stock Item.costAtSale Item.stamp].
    rewrite !orZero_eq. unfold Z.sub. rewrite inject_Z_plus, inject_Z_opp. ring. }
  rewrite Hv in Hi.
  assert (totalInventoryCost (map_to_list (products (staged t))).*2 ==
            totalInventoryCost (map_to_list (<[Item.productId i := p']>
                                               (products (staged t)))).*2
            + costAtSaleOrZero (Item.stamp (orZero (Product.averageCost p)) i)
              * inject_Z (Item.quantity i))%Q as ->.
  { apply (Qplus_inj_r _ _ (totalInventoryCost [p'])). rewrite <- Hi. ring. }
  rewrite E'. cbn [Item.quantity Item.stamp]. ring.
Qed.

(** X10.  A shipment takes out of the value of the inventory exactly the
    cost of goods sold that the reports compute from the lines stored with
    the completed order, quantity times costAtSale.  A read that follows a
    staged write is rejected or served from the staged state. *)
Theorem shipment_removes_its_cost rule order d d' :
  rule ≠ SnapshotReads →
  handleShipOrder rule order d = (d', Done) →
  ∃ o, salesOrders d' !! Order.id order = Some o
       ∧ Order.status o = "Completed"
       ∧ (totalInventoryCost (productDocs d) ==
            totalInventoryCost (productDocs d') + orderCogs (Order.items o))%Q.
Proof.
  intros Hrule H. rewrite handleShipOrder_eq in H.
  destruct (shipItems _ _ _ _) as [e|[us tf]] eqn:E; [done|].
  destruct (salesOrders (staged tf) !! Order.id order) as [o|]; [|done].
  injection H as <-. exists (Order.complete us o).
  split; [apply lookup_insert_eq|]. split; [done|].
  by apply (shipItems_value rule order (Order.items order) (mktxn d d false) us tf).
Qed.

Lemma shipment_removes_its_cost_witness :
  ∃ o, salesOrders (handleShipOrder ReadsBeforeWrites Stocked.so Stocked.start).1 !! "so2"
       = Some o
       ∧ (totalInventoryCost (productDocs Stocked.start) ==
            totalInventoryCost
              (productDocs (handleShipOrder ReadsBeforeWrites Stocked.so Stocked.start).1)
            + orderCogs (Order.items o))%Q.
Proof.
  destruct (shipment_removes_its_cost ReadsBeforeWrites Stocked.so Stocked.start
              (handleShipOrder ReadsBeforeWrites Stocked.so Stocked.start).1)
    as (o & Ho & _ & Hv).
  - discriminate.
  - reflexivity.
  - exists o. split; [exact Ho|exact Hv].
Defined.

(** ** Invariants of a product across the application *)

Section Kept.
Variable rule : read_rule.
Variable pid : string.
Variable I : db → Prop.
Hypothesis rule_reads : rule ≠ SnapshotReads.
Hypothesis I_received : ∀ order item p s,
  products s !! Item.productId item = Some p → I s → I (received order item p p s).
Hypothesis I_shipped : ∀ order item p s,
  products s !! Item.productId item = Some p → I s → I (shipped order item p p s).
Hypothesis I_exists : ∀ s, I s → products s !! pid = None → False.
Hypothesis I_frame : ∀ s s',
  same_figures (products s' !! pid) (products s !! pid) →
  inventoryLogs s' = inventoryLogs s → costLogs s' = costLogs s → I s → I s'.

Lemma same_figures_refl o : same_figures o o.
Proof. by destruct o. Qed.

Lemma receiveItems_keep order items t t' :
  coherent t → I (staged t) →
  receiveItems rule order items t = inr (tt, t') → I (staged t').
Proof.
  intros Hc HI H.
  apply (receiveItems_invariant rule order (λ u, coherent u ∧ I (staged u)))
    in H as [_ ?]; [done| |done].
  intros item u u' _ [Hcu HIu] (p & q & Hp & Hq & Hd & ->)%receiveItem_inv.
  split; [done|]. rewrite (view_staged rule u) in Hp by done.
  assert (q = p) as -> by congruence. by apply I_received.
Qed.

Lemma shipItems_keep order items t us t' :
  coherent t → I (staged t) →
  shipItems rule order items t = inr (us, t') → I (staged t').
Proof.
  intros Hc HI H.
  apply (shipItems_invariant rule order (λ u, coherent u ∧ I (staged u)))
    in H as [_ ?]; [done| |done].
  intros item u v u' _ [Hcu HIu] (p & q & Hp & Hq & Hd & _ & _ & ->)%shipItem_inv.
  split; [done|]. rewrite (view_staged rule u) in Hp by done.
  assert (q = p) as -> by congruence. by apply I_shipped.
Qed.

Lemma activity_keeps d d' : activity rule pid d d' → I d → I d'.
Proof.
  intros [order d1 d2 r H|order d1 d2 r H|c k d1 d2 r H|k n o d1 Hk|k n o d1 Hk
         |k pd d1 Hk|k data d1 d2 r H|c k d1 Hk] HI.
  - rewrite handleReceiveItems_eq in H.
    destruct (purchaseOrders d1 !! Order.id order); [|by injection H as <-].
    destruct (String.eqb _ _); [by injection H as <-|].
    destruct (receiveItems _ _ _ _) as [e|[[] tf]] eqn:E; [by injection H as <-|].
    destruct (purchaseOrders (staged tf) !! Order.id order) as [o|];
      [|by injection H as <-].
    injection H as <- _.
    apply receiveItems_keep in E; [|done..].
    revert E. apply I_frame; [apply same_figures_refl|done..].
  - rewrite handleShipOrder_eq in H.
    destruct (shipItems _ _ _ _) as [e|[us tf]] eqn:E; [by injection H as <-|].
    destruct (salesOrders (staged tf) !! Order.id order) as [o|];
      [|by injection H as <-].
    injection H as <- _.
    apply shipItems_keep in E; [|done..].
    revert E. apply I_frame; [apply same_figures_refl|done..].
  - unfold Sales.handleApproveOrder in H.
    destruct c; [|by injection H as <-].
    destruct (salesOrders d1 !! k); injection H as <- _; [|done].
    revert HI. apply I_frame; [apply same_figures_refl|done..].
  - revert HI. apply I_frame; [apply same_figures_refl|done..].
  - revert HI. apply I_frame; [apply same_figures_refl|done..].
  - destruct (decide (k = pid)) as [->|Hne]; [destruct (I_exists d1 HI Hk)|].
    revert HI. apply I_frame; [|done..]. simpl.
    rewrite lookup_insert_ne by done. apply same_figures_refl.
  - unfold handleUpdate in H. destruct (products d1 !! k) as [p|] eqn:Hp;
      injection H as <- _; [|done].
    revert HI. apply I_frame; [|done..]. simpl.
    destruct (decide (k = pid)) as [->|Hne].
    + by rewrite lookup_insert_eq, Hp.
    + rewrite lookup_insert_ne by done. apply same_figures_refl.
  - unfold handleDelete. destruct c; [|done].
    revert HI. apply I_frame; [|done..]. simpl.
    rewrite lookup_delete_ne by done. apply same_figures_refl.
Qed.

Lemma activities_keep d d' : activities rule pid d d' → I d → I d'.
Proof.
  induction 1 as [d|d d' d'' _ IH Hstep]; [done|].
  intros HI. eapply activity_keeps; [done|]. by apply IH.
Qed.
End Kept.

Lemma balanced_received pid order item p s :
  products s !! Item.productId item = Some p →
  balanced pid s → balanced pid (received order item p p s).
Proof.
  intros Hp Hb.
  destruct (received_frame order item p p s) as (_ & _ & Hps).
  destruct (received_logs order item p p s) as (Hls & _).
  eapply balanced_move; [done|exact Hp|exact Hps|exact Hls|done|..]; simpl.
  - by rewrite orZeroZ_id.
  - done.
Qed.

Lemma balanced_shipped pid order item p s :
  products s !! Item.productId item = Some p →
  balanced pid s → balanced pid (shipped order item p p s).
Proof.
  intros Hp Hb.
  destruct (shipped_frame order item p p s) as (_ & _ & _ & Hps).
  eapply balanced_move;
    [done|exact Hp|exact Hps|apply shipped_logs|done|..]; simpl; lia.
Qed.

Lemma balanced_frame pid s s' :
  same_figures (products s' !! pid) (products s !! pid) →
  inventoryLogs s' = inventoryLogs s → costLogs s' = costLogs s →
  balanced pid s → balanced pid s'.
Proof.
  intros Hf Hl _ (p & Hp & Hsum & Hrun). rewrite Hp in Hf.
  destruct (products s' !! pid) as [p'|] eqn:Hp'; [|done].
  destruct Hf as (Hs & _). exists p'. by rewrite Hl, Hs.
Qed.

(** X11.  A product is created and the application goes on: orders are
    saved, approved, received and shipped, with success or not, products are
    edited, other products are created and deleted.  At every moment the
    changes of the product's inventory log add up to its stock.  A read that
    follows a staged write is rejected or served from the staged state. *)
Theorem ledger_across_the_application rule pid productData d0 d :
  rule ≠ SnapshotReads →
  products d0 !! pid = None →
  Forall (λ e, InvLog.productId e ≠ pid) (inventoryLogs d0) →
  activities rule pid (handleAdd pid productData d0) d →
  ∃ p, products d !! pid = Some p
       ∧ ledger pid (inventoryLogs d) = Product.stock p.
Proof.
  intros Hrule Hfree Hlogs Hact.
  assert (balanced pid d) as (p & Hp & Hl & _); [|by exists p].
  eapply (activities_keep rule pid (balanced pid)); [done|..|exact Hact|].
  - intros. by apply balanced_received.
  - intros. by apply balanced_shipped.
  - intros s (p & Hp & _) Hn. congruence.
  - apply balanced_frame.
  - eexists. split; [apply lookup_insert_eq|]. simpl. split; [by rewrite ledger_none|].
    intros k e Hk He. apply (Forall_lookup_1 _ _ _ _ Hlogs) in Hk. done.
Qed.

Lemma ledger_across_the_application_witness :
  ∃ p,
    products
      (handleUpdate "w"
         (ProductForm.mk "SKU" "Acme" "Widget" "XL" "spare" 10 9 8 7 5)
         (handleReceiveItems ReadsBeforeWrites Shop.po1
            (handleAdd "w" Shop.widget
               (mkdb ∅ {["po1" := Shop.po1]} ∅ [] []))).1).1 !! "w" = Some p
    ∧ ledger "w"
        (inventoryLogs
           (handleUpdate "w"
              (ProductForm.mk "SKU" "Acme" "Widget" "XL" "spare" 10 9 8 7 5)
              (handleReceiveItems ReadsBeforeWrites Shop.po1
                 (handleAdd "w" Shop.widget
                    (mkdb ∅ {["po1" := Shop.po1]} ∅ [] []))).1).1)
      = Product.stock p.
Proof.
  apply (ledger_across_the_application ReadsBeforeWrites "w" Shop.widget
           (mkdb ∅ {["po1" := Shop.po1]} ∅ [] [])).
  - discriminate.
  - reflexivity.
  - constructor.
  - eapply activities_step;
      [eapply activities_step; [apply activities_nil|]|].
    + eapply act_receive. apply surjective_pairing.
    + eapply act_update. apply surjective_pairing.
Defined.

(** ** The ledgers a product page opens *)

Lemma inventoryLedger_snoc pid s s' e :
  inventoryLogs s' = inventoryLogs s ++ [e] →
  inventoryLedger pid s' =
    if decide (InvLog.productId e = pid) then e :: inventoryLedger pid s
    else inventoryLedger pid s.
Proof.
  intros H. unfold inventoryLedger. rewrite H, filter_app, reverse_app.
  rewrite filter_cons, filter_nil. by destruct (decide _).
Qed.

Lemma costLedger_snoc pid s s' e :
  costLogs s' = costLogs s ++ [e] →
  costLedger pid s' =
    if decide (CostLog.productId e = pid) then e :: costLedger pid s
    else costLedger pid s.
Proof.
  intros H. unfold costLedger. rewrite H, filter_app, reverse_app.
  rewrite filter_cons, filter_nil. by destruct (decide _).
Qed.

Lemma ledgerShows_move pid s s' p0 pid' v e :
  ledgerShows pid s →
  products s !! pid' = Some p0 →
  products s' = <[pid' := v]> (products s) →
  inventoryLogs s' = inventoryLogs s ++ [e] →
  InvLog.productId e = pid' →
  Product.stock v = Product.stock p0 + InvLog.change e →
  InvLog.newStock e = Product.stock v →
  ledgerShows pid s'.
Proof.
  intros (p & Hp & Hs & Hc) Hp0 Hps Hls He Hv Hn.
  unfold ledgerShows. rewrite Hps, (inventoryLedger_snoc pid s s' e Hls), He.
  destruct (decide (pid' = pid)) as [->|Hne].
  - rewrite lookup_insert_eq. exists v.
    assert (p0 = p) as -> by congruence.
    split_and!; [done|done|]. simpl. split; [|done].
    rewrite Hn, Hv, Hs. by destruct (inventoryLedger pid s).
  - rewrite lookup_insert_ne by done. by exists p.
Qed.

Lemma ledgerShows_frame pid s s' :
  same_figures (products s' !! pid) (products s !! pid) →
  inventoryLogs s' = inventoryLogs s → costLogs s' = costLogs s →
  ledgerShows pid s → ledgerShows pid s'.
Proof.
  intros Hf Hl _ (p & Hp & Hs & Hc). rewrite Hp in Hf.
  destruct (products s' !! pid) as [p'|] eqn:Hp'; [|done].
  destruct Hf as (Hst & _). exists p'.
  unfold inventoryLedger in *. by rewrite Hl, Hst.
Qed.

(** X12.  The inventory ledger of a product, as its page lists it (the
    entries of the product, the latest first), shows the stock of the product
    in its first row, and every row holds the balance of the row below it
    plus its own change, the oldest one starting from 0.  This holds at every
    moment after the product is created, whatever the application does
    next, short of deleting the product. *)
Theorem inventory_ledger_shows_stock rule pid productData d0 d :
  rule ≠ SnapshotReads →
  products d0 !! pid = None →
  Forall (λ e, InvLog.productId e ≠ pid) (inventoryLogs d0) →
  activities rule pid (handleAdd pid productData d0) d →
  ∃ p, products d !! pid = Some p
       ∧ Product.stock p =
           match inventoryLedger pid d with
           | [] => 0
           | e :: _ => InvLog.newStock e
           end
       ∧ chained 0 (inventoryLedger pid d).
Proof.
  intros Hrule Hfree Hlogs Hact.
  change (ledgerShows pid d).
  eapply (activities_keep rule pid (ledgerShows pid)); [done|..|exact Hact|].
  - intros order item p s Hp Hb.
    destruct (received_frame order item p p s) as (_ & _ & Hps).
    destruct (received_logs order item p p s) as (Hls & _).
    eapply ledgerShows_move; [done|exact Hp|exact Hps|exact Hls|done|..]; simpl.
    + by rewrite orZeroZ_id.
    + done.
  - intros order item p s Hp Hb.
    destruct (shipped_frame order item p p s) as (_ & _ & _ & Hps).
    eapply ledgerShows_move;
      [done|exact Hp|exact Hps|apply shipped_logs|done|..]; simpl; lia.
  - intros s (p & Hp & _) Hn. congruence.
  - apply ledgerShows_frame.
  - eexists. split; [apply lookup_insert_eq|].
    assert (inventoryLedger pid (handleAdd pid productData d0) = []) as ->; [|done].
    unfold inventoryLedger. simpl.
    replace (filter _ (inventoryLogs d0)) with (@nil InvLog.t); [done|].
    symmetry. clear -Hlogs. induction Hlogs as [|e l He _ IH]; [done|].
    rewrite filter_cons. by destruct (decide _).
Qed.

Lemma inventory_ledger_shows_stock_witness :
  ∃ p,
    products
      (handleShipOrder ReadsBeforeWrites
         Opening.so
         (handleReceiveItems ReadsBeforeWrites Shop.po1
            (handleAdd "w" Shop.widget
               Opening.start)).1).1 !! "w" = Some p
    ∧ Product.stock p =
        match inventoryLedger "w"
                (handleShipOrder ReadsBeforeWrites
                   Opening.so
                   (handleReceiveItems ReadsBeforeWrites Shop.po1
                      (handleAdd "w" Shop.widget
                         Opening.start)).1).1
        with
        | [] => 0
        | e :: _ => InvLog.newStock e
        end
    ∧ chained 0
        (inventoryLedger "w"
           (handleShipOrder ReadsBeforeWrites
              Opening.so
              (handleReceiveItems ReadsBeforeWrites Shop.po1
                 (handleAdd "w" Shop.widget
                    Opening.start)).1).1).
Proof.
  apply (inventory_ledger_shows_stock ReadsBeforeWrites "w" Shop.widget
           Opening.start).
  - discriminate.
  - reflexivity.
  - constructor.
  - eapply activities_step;
      [eapply activities_step; [apply activities_nil|]|].
    + eapply act_receive. apply surjective_pairing.
    + eapply act_ship. apply surjective_pairing.
Defined.

(** *** The text of a cost *)

Lemma numeral_eqb_refl a : numeral_eqb a a = true.
Proof.
  destruct a; simpl; [apply String.eqb_refl|].
  apply Qeq_bool_iff. reflexivity.
Qed.

Lemma numeral_eqb_sym a b : numeral_eqb a b = true → numeral_eqb b a = true.
Proof.
  destruct a, b; simpl; try done.
  - intros ->%String.eqb_eq. apply String.eqb_refl.
  - rewrite !Qeq_bool_iff. by intros ->.
Qed.

Lemma numeral_eqb_trans a b c :
  numeral_eqb a b = true → numeral_eqb b c = true → numeral_eqb a c = true.
Proof.
  destruct a, b, c; simpl; try done.
  - by intros ->%String.eqb_eq.
  - rewrite !Qeq_bool_iff. intros ->. done.
Qed.

Lemma numeral_eqb_Qeq x y :
  (x == y)%Q → numeral_eqb (toFixed5 x) (toFixed5 y) = true.
Proof.
  intros E. destruct (numeral_eqb _ _) eqn:D; [done|].
  by apply toFixed5_differs in D.
Qed.

Lemma costShown_received pid order item p s :
  products s !! Item.productId item = Some p →
  costShown pid 0 s → costShown pid 0 (received order item p p s).
Proof.
  intros Hp0 (p1 & Hp & Hshow).
  destruct (received_frame order item p p s) as (_ & _ & Hps).
  destruct (received_logs order item p p s) as (_ & Hcs).
  unfold costShown. rewrite Hps.
  destruct (decide (Item.productId item = pid)) as [E|Hne].
  - rewrite E, lookup_insert_eq. eexists. split; [done|]. simpl.
    rewrite E in Hp0. assert (p1 = p) as -> by congruence.
    simpl in Hcs.
    destruct (numeral_eqb (toFixed5 (orZero (Product.averageCost p))) _) eqn:D;
      simpl in Hcs.
    + unfold costLedger in *. rewrite Hcs, app_nil_r.
      eapply numeral_eqb_trans; [|exact Hshow].
      eapply numeral_eqb_trans; [apply numeral_eqb_sym, D|].
      apply numeral_eqb_Qeq, orZero_eq.
    + rewrite (costLedger_snoc pid _ _ _ Hcs). simpl.
      rewrite decide_True by done. apply numeral_eqb_refl.
  - rewrite lookup_insert_ne by done. exists p1. split; [done|].
    simpl in Hcs. destruct (negb _).
    + rewrite (costLedger_snoc pid _ _ _ Hcs). simpl.
      by rewrite decide_False by done.
    + unfold costLedger in *. by rewrite Hcs, app_nil_r.
Qed.

Lemma costShown_shipped pid order item p s :
  products s !! Item.productId item = Some p →
  costShown pid 0 s → costShown pid 0 (shipped order item p p s).
Proof.
  intros Hp0 (p1 & Hp & Hshow).
  destruct (shipped_frame order item p p s) as (_ & _ & Hcs & Hps).
  unfold costShown, costLedger in *. rewrite Hps, Hcs.
  destruct (decide (Item.productId item = pid)) as [E|Hne].
  - rewrite E, lookup_insert_eq. eexists. split; [done|]. simpl.
    rewrite E in Hp0. by assert (p1 = p) as -> by congruence.
  - rewrite lookup_insert_ne by done. by exists p1.
Qed.

Lemma costShown_frame pid s s' :
  same_figures (products s' !! pid) (products s !! pid) →
  inventoryLogs s' = inventoryLogs s → costLogs s' = costLogs s →
  costShown pid 0 s → costShown pid 0 s'.
Proof.
  intros Hf _ Hl (p & Hp & Hs). rewrite Hp in Hf.
  destruct (products s' !! pid) as [p'|] eqn:Hp'; [|done].
  destruct Hf as (_ & Ha & _). exists p'.
  unfold costLedger in *. by rewrite Hl, Ha.
Qed.

(** X13.  The cost ledger of a product, as its page lists it, shows in its
    first row the average cost of the product, in the text of five decimals
    in which the receipt compares costs; a product with no row has an average
    cost whose text is that of 0.  This holds at every moment after the
    product is created, whatever the application does next, short of
    deleting the product. *)
Theorem cost_ledger_shows_average_cost rule pid productData d0 d :
  rule ≠ SnapshotReads →
  products d0 !! pid = None →
  Forall (λ e, CostLog.productId e ≠ pid) (costLogs d0) →
  activities rule pid (handleAdd pid productData d0) d →
  ∃ p, products d !! pid = Some p
       ∧ numeral_eqb
           (toFixed5 (Product.averageCost p))
           (toFixed5 match costLedger pid d with
                     | [] => 0
                     | e :: _ => CostLog.newAvgCost e
                     end) = true.
Proof.
  intros Hrule Hfree Hlogs Hact.
  change (costShown pid 0 d).
  eapply (activities_keep rule pid (costShown pid 0)); [done|..|exact Hact|].
  - intros. by apply costShown_received.
  - intros. by apply costShown_shipped.
  - intros s (p & Hp & _) Hn. congruence.
  - apply costShown_frame.
  - eexists. split; [apply lookup_insert_eq|].
    assert (costLedger pid (handleAdd pid productData d0) = []) as ->; [|done].
    unfold costLedger. simpl.
    replace (filter _ (costLogs d0)) with (@nil CostLog.t); [done|].
    symmetry. clear -Hlogs. induction Hlogs as [|e l He _ IH]; [done|].
    rewrite filter_cons. by destruct (decide _).
Qed.

Lemma cost_ledger_shows_average_cost_witness :
  ∃ p,
    products
      (handleShipOrder ReadsBeforeWrites
         Opening.so
         (handleReceiveItems ReadsBeforeWrites Shop.po1
            (handleAdd "w" Shop.widget
               Opening.start)).1).1 !! "w" = Some p
    ∧ numeral_eqb
        (toFixed5 (Product.averageCost p))
        (toFixed5
           match costLedger "w"
                   (handleShipOrder ReadsBeforeWrites
                      Opening.so
                      (handleReceiveItems ReadsBeforeWrites Shop.po1
                         (handleAdd "w" Shop.widget
                            Opening.start)).1).1
           with
           | [] => 0
           | e :: _ => CostLog.newAvgCost e
           end) = true.
Proof.
  apply (cost_ledger_shows_average_cost ReadsBeforeWrites "w" Shop.widget
           Opening.start).
  - discriminate.
  - reflexivity.
  - constructor.
  - eapply activities_step;
      [eapply activities_step; [apply activities_nil|]|].
    + eapply act_receive. apply surjective_pairing.
    + eapply act_ship. apply surjective_pairing.
Defined.

(** ** The statement of a customer *)

Lemma insertByDate_perm o l : insertByDate o l ≡ₚ o :: l.
Proof.
  induction l as [|x l IH]; simpl; [done|].
  destruct (_ <? _); [done|]. rewrite IH. apply Permutation_swap.
Qed.

Lemma insertByDate_sorted o l :
  StronglySorted byDate l → StronglySorted byDate (insertByDate o l).
Proof.
  induction 1 as [|x l Hl IH Hx]; simpl; [repeat constructor|].
  destruct (Z.ltb_spec (Sale.createdAt o) (Sale.createdAt x)).
  - constructor; [by constructor|]. constructor; [unfold byDate; lia|].
    eapply Forall_impl; [exact Hx|]. unfold byDate. intros; lia.
  - constructor; [done|]. rewrite insertByDate_perm.
    constructor; [unfold byDate; lia|done].
Qed.

(** Orders of the same date stay in the order in which they came. *)
Lemma insertByDate_stable t o l :
  StronglySorted byDate l →
  filter (λ x, Sale.createdAt x = t) (insertByDate o l) =
    filter (λ x, Sale.createdAt x = t) l
      ++ filter (λ x, Sale.createdAt x = t) [o].
Proof.
  induction 1 as [|x l Hl IH Hx]; simpl; [done|].
  destruct (Z.ltb_spec (Sale.createdAt o) (Sale.createdAt x)).
  - rewrite (filter_cons _ o), (filter_cons _ o), filter_nil.
    destruct (decide (Sale.createdAt o = t)) as [E|]; [|by rewrite app_nil_r].
    assert (filter (λ x0, Sale.createdAt x0 = t) (x :: l) = []) as ->; [|done].
    rewrite filter_cons, decide_False by lia.
    clear -H E Hx. induction Hx as [|y l Hy _ IH]; [done|].
    rewrite filter_cons, decide_False; [done|]. unfold byDate in Hy. lia.
  - rewrite !(filter_cons _ x), IH. by destruct (decide _).
Qed.

Lemma sortByDate_from acc l :
  StronglySorted byDate acc →
  let sorted := fold_left (λ sorted o, insertByDate o sorted) l acc in
  sorted ≡ₚ acc ++ l
  ∧ StronglySorted byDate sorted
  ∧ ∀ t, filter (λ x, Sale.createdAt x = t) sorted =
         filter (λ x, Sale.createdAt x = t) acc
           ++ filter (λ x, Sale.createdAt x = t) l.
Proof.
  revert acc. induction l as [|o l IH]; intros acc Hacc; simpl.
  - rewrite app_nil_r. split_and!; [done..|]. intros t. by rewrite app_nil_r.
  - destruct (IH (insertByDate o acc)) as (Hp & Hs & Hf);
      [by apply insertByDate_sorted|].
    split_and!; [|done|].
    + rewrite Hp, insertByDate_perm. apply Permutation_middle.
    + intros t. rewrite Hf, insertByDate_stable by done.
      rewrite <- app_assoc. f_equal.
      rewrite !(filter_cons _ o), filter_nil. by destruct (decide _).
Qed.

(** X14.  A statement is made only for a selected customer.  It lists the
    sales orders of that customer dated within the period, each one once, by
    ascending date, orders of the same date in the order in which the
    subscription delivered them, and its total is the sum of their
    amounts. *)
Theorem statement_of_a_customer selectedCustomer start end_ sales :
  let chosen :=
    filter (λ o, (start ≤ Sale.createdAt o ∧ Sale.createdAt o ≤ end_)
                 ∧ Sale.partyName o = selectedCustomer) sales in
  match handleGenerateStatement selectedCustomer start end_ sales with
  | None => selectedCustomer = EmptyString
  | Some st =>
      selectedCustomer ≠ EmptyString
      ∧ customer st = selectedCustomer
      ∧ orders st ≡ₚ chosen
      ∧ StronglySorted byDate (orders st)
      ∧ (∀ t, filter (λ o, Sale.createdAt o = t) (orders st)
              = filter (λ o, Sale.createdAt o = t) chosen)
      ∧ (statementTotal st ==
           fold_left (λ sum o, sum + Sale.totalAmount o) chosen 0)%Q
  end.
Proof.
  intros chosen. unfold handleGenerateStatement.
  destruct (String.eqb_spec selectedCustomer EmptyString) as [|Hc]; [done|].
  assert (filterOrdersByDate start end_
            (filter (λ o, Sale.partyName o = selectedCustomer) sales) = chosen)
    as -> by apply list_filter_filter.
  destruct (sortByDate_from [] chosen) as (Hp & Hs & Hf); [constructor|].
  simpl in *. split_and!; try done.
  apply (Qsum_perm Sale.totalAmount), Hp.
Qed.

(** ** Deleting a product *)

Lemma receiveItems_known rule order items t t' :
  same_ids t → receiveItems rule order items t = inr (tt, t') →
  ∀ item, item ∈ items → products (snapshot t) !! Item.productId item ≠ None.
Proof.
  revert t. induction items as [|i items IH]; intros t Hids H item Hin.
  - by apply elem_of_nil in Hin.
  - rewrite receiveItems_cons in H.
    destruct (receiveItem rule order i t) as [|[[] t1]] eqn:E; [done|].
    apply elem_of_cons in Hin as [->|Hin].
    + apply receiveItem_inv in E as (p & q & _ & Hq & _).
      intros Hn. apply Hids in Hn. congruence.
    + assert (snapshot t1 = snapshot t) as <-.
      { apply receiveItem_inv in E as (p & q & _ & _ & _ & ->). done. }
      eapply IH; [|exact H|done]. by eapply receiveItem_same_ids.
Qed.

Lemma shipItems_known rule order items t us t' :
  same_ids t → shipItems rule order items t = inr (us, t') →
  ∀ item, item ∈ items → products (snapshot t) !! Item.productId item ≠ None.
Proof.
  revert t us. induction items as [|i items IH]; intros t us Hids H item Hin.
  - by apply elem_of_nil in Hin.
  - rewrite shipItems_cons in H.
    destruct (shipItem rule order i t) as [|[u t1]] eqn:E; [done|].
    destruct (shipItems rule order items t1) as [|[us1 t2]] eqn:E2; [done|].
    injection H as <- <-.
    apply elem_of_cons in Hin as [->|Hin].
    + apply shipItem_inv in E as (p & q & _ & Hq & _).
      intros Hn. apply Hids in Hn. congruence.
    + assert (snapshot t1 = snapshot t) as <-.
      { apply shipItem_inv in E as (p & q & _ & _ & _ & _ & _ & ->). done. }
      eapply IH; [|exact E2|done]. by eapply shipItem_same_ids.
Qed.

(** X15.  Deleting a product removes its document and nothing else: the
    orders that name the product and the log entries about it stay.  From
    then on an order with a line for that product can be neither received nor
    shipped, and the product cannot be edited: each handler fails and leaves
    the store as it is. *)
Theorem deleted_product_blocks_orders rule order item d data :
  item ∈ Order.items order →
  let d' := handleDelete true (Item.productId item) d in
  products d' = delete (Item.productId item) (products d)
  ∧ purchaseOrders d' = purchaseOrders d
  ∧ salesOrders d' = salesOrders d
  ∧ inventoryLogs d' = inventoryLogs d
  ∧ costLogs d' = costLogs d
  ∧ (∃ e, handleReceiveItems rule order d' = (d', Failed e))
  ∧ (∃ e, handleShipOrder rule order d' = (d', Failed e))
  ∧ handleUpdate (Item.productId item) data d' = (d', Failed DocumentNotFound).
Proof.
  intros Hin d'.
  assert (products d' !! Item.productId item = None) as Hgone
    by apply lookup_delete_eq.
  split_and!; try done.
  - rewrite handleReceiveItems_eq.
    destruct (purchaseOrders d' !! Order.id order) as [o|]; [|by eexists].
    destruct (String.eqb _ _); [by eexists|].
    destruct (receiveItems _ _ _ _) as [e|[[] t]] eqn:E; [by eexists|].
    exfalso. eapply (receiveItems_known _ _ _ _ _ (same_ids_refl d') E); done.
  - rewrite handleShipOrder_eq.
    destruct (shipItems _ _ _ _) as [e|[us t]] eqn:E; [by eexists|].
    exfalso. eapply (shipItems_known _ _ _ _ _ _ (same_ids_refl d') E); done.
  - unfold handleUpdate. by rewrite Hgone.
Qed.

Lemma deleted_product_blocks_orders_witness :
  (∃ e, handleReceiveItems ReadsBeforeWrites Shop.po1
          (handleDelete true "w" Shop.start)
        = (handleDelete true "w" Shop.start, Failed e))
  ∧ (∃ e, handleShipOrder ReadsBeforeWrites Shop.po1
            (handleDelete true "w" Shop.start)
          = (handleDelete true "w" Shop.start, Failed e)).
Proof.
  pose proof (deleted_product_blocks_orders ReadsBeforeWrites Shop.po1
                (Shop.line 10 100) Shop.start
                (ProductForm.mk "SKU" "Acme" "Widget" "XL" "spare" 10 9 8 7 5))
    as H.
  destruct H as (_ & _ & _ & _ & _ & Hr & Hs & _).
  - apply list_elem_of_singleton. reflexivity.
  - split; [exact Hr|exact Hs].
Defined.
